(** * BankAnalytics: the metrics and risk scoring engine of [metrics.py]

    A shallow embedding of [metrics.py] (with the two constants it takes from
    [config.py]) and the properties of its calculators.

    Modelling conventions.
    - SQLite [REAL] values and Python/NumPy floats are exact rationals ([Q]),
      compared with [==].  IEEE rounding, overflow and infinities are outside
      the model; the NaN kept is the one pandas uses for a SQL [NULL] and for
      0.0 / 0.0.  Where binary64 decides a property the computation is given
      in binary64 as well ([concentration_score_binary64]).
    - A function that can raise returns a [result]; [try ... except] is
      [try_except].
    - A [pandas.DataFrame] is a list of named columns; an SQL text of the
      source is a constructor of [query] and [read_sql_query] evaluates it on
      the tables of the connection.  A table that cannot be read makes every
      query over it fail with [sqlite3.Error].
    - The schema constrains the tables to [REAL NOT NULL] and the like; the
      data model adds that a loan has a positive amount.  Where a property
      needs the latter it says so ([valid_loans]).
    - Calls to the logger have no effect on any returned value and are left
      out, and so is the [params] argument of [_safe_query_execution], which
      no caller passes. *)

From Stdlib Require Import QArith Qround Qminmax Qabs ZArith List String Bool Lia Lqa.
From Stdlib Require Import Permutation Sorted.
From Stdlib Require Import Ascii DecimalString DecimalN.
From Stdlib Require Import Floats.
Import ListNotations.
Open Scope string_scope.
Open Scope Q_scope.

(** ** Python scalars *)

Definition float := Q.

Definition Qltb (x y : Q) : bool := negb (Qle_bool y x).

(** [min(a, b)] of Python: the first argument unless the second is smaller. *)
Definition py_min (a b : float) : float := if Qltb b a then b else a.

(** Rounding to the nearest integer, ties to the even one. *)
Definition round_half_even (x : Q) : Z :=
  let f := Qfloor x in
  let r := x - inject_Z f in
  if Qltb r (1 # 2) then f
  else if Qltb (1 # 2) r then (f + 1)%Z
  else if Z.even f then f else (f + 1)%Z.

(** [round(x, ndigits)] *)
Definition py_round (x : float) (ndigits : Z) : float :=
  let m := inject_Z (10 ^ ndigits) in
  inject_Z (round_half_even (x * m)) / m.

Fixpoint Qsum (l : list Q) : Q :=
  match l with
  | [] => 0
  | x :: l' => x + Qsum l'
  end.

(** ** Exceptions *)

Inductive exn : Type :=
| Sqlite3Error   (* sqlite3.Error and what pandas wraps around it *)
| KeyError
| TypeError.

Inductive result (A : Type) : Type :=
| Ok (a : A)
| Raise (e : exn).
Arguments Ok {A} a.
Arguments Raise {A} e.

Definition ret {A} (a : A) : result A := Ok a.

Definition bind {A B} (c : result A) (k : A -> result B) : result B :=
  match c with
  | Ok a => k a
  | Raise e => Raise e
  end.

Notation "x <- c ;; k" := (bind c (fun x => k))
  (at level 61, c at next level, right associativity).
Notation "' pat <- c ;; k" := (bind c (fun x => match x with pat => k end))
  (at level 61, pat pattern, c at next level, right associativity).

(** [try: body  except Exception as e: handler e] *)
Definition try_except {A} (body : result A) (handler : exn -> result A) : result A :=
  match body with
  | Ok a => Ok a
  | Raise e => handler e
  end.

(** [returns r P]: the call returned normally, with a value satisfying [P]. *)
Definition returns {A} (r : result A) (P : A -> Prop) : Prop :=
  match r with
  | Ok a => P a
  | Raise _ => False
  end.

(** ** pandas *)

Inductive cell : Type :=
| NaN                (* SQL NULL / missing value *)
| Num (q : Q)        (* REAL or INTEGER *)
| Str (s : string).  (* TEXT *)

Definition Series := list cell.

(** A frame is its columns, in order; all of one length. *)
Definition DataFrame := list (string * Series).

(** [pd.DataFrame()] *)
Definition empty_frame : DataFrame := [].

(** [len(df)] *)
Definition len (df : DataFrame) : nat :=
  match df with
  | [] => 0%nat
  | (_, s) :: _ => List.length s
  end.

(** [df.empty]: some axis has length 0. *)
Definition df_empty (df : DataFrame) : bool := (len df =? 0)%nat.

(** [df.columns] *)
Definition columns (df : DataFrame) : list string := map fst df.

(** [c in df.columns] *)
Definition has_column (df : DataFrame) (c : string) : bool :=
  existsb (String.eqb c) (columns df).

(** [df[c]] *)
Fixpoint getitem (df : DataFrame) (c : string) : result Series :=
  match df with
  | [] => Raise KeyError
  | (n, s) :: df' => if (n =? c)%string then Ok s else getitem df' c
  end.

(** [df[c] = s]: replaces the column when it exists, appends it otherwise. *)
Fixpoint setitem (df : DataFrame) (c : string) (s : Series) : DataFrame :=
  match df with
  | [] => [(c, s)]
  | (n, s0) :: df' =>
      if (n =? c)%string then (n, s) :: df' else (n, s0) :: setitem df' c s
  end.

Notation "df .[ c ]" := (getitem df c) (at level 1, format "df .[ c ]").

(** [s.sum()]: missing values are skipped; text is no number. *)
Fixpoint series_sum (s : Series) : result float :=
  match s with
  | [] => ret 0
  | NaN :: s' => series_sum s'
  | Num q :: s' => t <- series_sum s' ;; ret (q + t)
  | Str _ :: _ => Raise TypeError
  end.

(** Element-wise arithmetic.  A missing operand gives a missing result, and
    so does 0.0 / 0.0, which is NaN in NumPy.  The quotient of a nonzero
    number by zero is an infinity in NumPy; infinities are outside the model
    and the quotient is recorded as a missing value.  In [metrics.py] this
    case needs sector totals of both signs that cancel to a total of 0; it
    does not arise when no amount is negative. *)
Definition cell_div (a b : cell) : result cell :=
  match a, b with
  | Str _, _ | _, Str _ => Raise TypeError
  | Num x, Num y => if Qeq_bool y 0 then ret NaN else ret (Num (x / y))
  | _, _ => ret NaN
  end.

Definition cell_mul (a b : cell) : result cell :=
  match a, b with
  | Str _, _ | _, Str _ => Raise TypeError
  | Num x, Num y => ret (Num (x * y))
  | _, _ => ret NaN
  end.

Fixpoint series_map (f : cell -> result cell) (s : Series) : result Series :=
  match s with
  | [] => ret []
  | c :: s' => c' <- f c ;; t <- series_map f s' ;; ret (c' :: t)
  end.

(** [a / b] on two series of one length *)
Fixpoint series_div (a b : Series) : result Series :=
  match a, b with
  | x :: a', y :: b' => c <- cell_div x y ;; t <- series_div a' b' ;; ret (c :: t)
  | _, _ => ret []
  end.

(** [s / k], [s * k] and [s ** 2] for a scalar [k] *)
Definition series_div_scalar (s : Series) (k : float) : result Series :=
  series_map (fun c => cell_div c (Num k)) s.
Definition series_mul_scalar (s : Series) (k : float) : result Series :=
  series_map (fun c => cell_mul c (Num k)) s.
Definition series_square (s : Series) : result Series :=
  series_map (fun c => cell_mul c c) s.

(** [s.iloc[0]] *)
Definition iloc0 (s : Series) : option cell := hd_error s.

(** ** The data source

    The three tables the engine reads, with the columns and types of the
    schema ([REAL NOT NULL], [TEXT NOT NULL], [INTEGER NOT NULL]). *)

Record FinancialPeriod : Type := {
  month : string;
  interest_income : Q;
  interest_expense : Q;
  fee_income : Q;
  operating_cost : Q;
  net_profit : Q
}.

Record Account : Type := {
  account_id : string;
  account_customer_id : string;
  account_type : string;
  balance : Q;
  account_interest_rate : Q
}.

Record Loan : Type := {
  loan_id : string;
  loan_customer_id : string;
  sector : string;
  loan_amount : Q;
  loan_interest_rate : Q;
  default_flag : Z
}.

(** A connection gives access to the tables.  A table that cannot be read
    (the connection is closed, the table or one of its columns is missing) is
    [None]: every query over it fails with [sqlite3.Error]. *)
Record Connection : Type := {
  financial_statements : option (list FinancialPeriod);
  accounts : option (list Account);
  loans : option (list Loan)
}.

(** ** config.py *)

Definition EQUITY_PERCENTAGE : float := 15 # 100.
Definition MONTHS_FOR_ANALYSIS : nat := 12.

(** ** SQL *)

(** [SUM(e)]: NULL over no rows. *)
Definition sql_sum (xs : list Q) : cell :=
  match xs with
  | [] => NaN
  | _ => Num (Qsum xs)
  end.

(** [COUNT(...)] of the rows counted *)
Definition count_of {A} (xs : list A) : Q := inject_Z (Z.of_nat (List.length xs)).
Definition sql_count {A} (xs : list A) : cell := Num (count_of xs).

(** [COALESCE(e, 0)] *)
Definition sql_coalesce0 (c : cell) : cell :=
  match c with
  | NaN => Num 0
  | _ => c
  end.

(** [ORDER BY key DESC]: insertion of a row before the first row whose key
    is not greater. *)
Section OrderBy.
Context {A : Type} (geb : A -> A -> bool).

Fixpoint insert_desc (x : A) (l : list A) : list A :=
  match l with
  | [] => [x]
  | y :: l' => if geb x y then x :: y :: l' else y :: insert_desc x l'
  end.

Fixpoint order_by_desc (l : list A) : list A :=
  match l with
  | [] => []
  | x :: l' => insert_desc x (order_by_desc l')
  end.
End OrderBy.

Definition month_geb (a b : FinancialPeriod) : bool :=
  String.leb (month b) (month a).

(** [FROM financial_statements ORDER BY month DESC LIMIT n] *)
Definition recent_periods (n : nat) (fs : list FinancialPeriod) : list FinancialPeriod :=
  firstn n (order_by_desc month_geb fs).

(** [WHERE account_type IN ('checking', 'savings')] *)
Definition is_deposit (a : Account) : bool :=
  (account_type a =? "checking")%string || (account_type a =? "savings")%string.

Definition deposit_balances (acs : list Account) : list Q :=
  map balance (filter is_deposit acs).

(** [default_flag = 1] *)
Definition defaulted (l : Loan) : bool := (default_flag l =? 1)%Z.

(** [CASE WHEN default_flag = 1 THEN loan_amount ELSE 0 END] *)
Definition defaulted_amount_of (l : Loan) : Q :=
  if defaulted l then loan_amount l else 0.

(** One row of the [GROUP BY sector] query. *)
Record SectorRow : Type := {
  row_sector : string;
  row_loan_count : Q;
  row_total_exposure : Q;
  row_defaulted_exposure : Q;
  row_defaulted_count : Q
}.

Definition in_sector (s : string) (l : Loan) : bool := (sector l =? s)%string.

Definition sector_row (ls : list Loan) (s : string) : SectorRow :=
  let g := filter (in_sector s) ls in
  {| row_sector := s;
     row_loan_count := count_of g;
     row_total_exposure := Qsum (map loan_amount g);
     row_defaulted_exposure := Qsum (map defaulted_amount_of g);
     row_defaulted_count := count_of (filter defaulted g) |}.

Definition exposure_geb (a b : SectorRow) : bool :=
  Qle_bool (row_total_exposure b) (row_total_exposure a).

(** [FROM loans GROUP BY sector ORDER BY total_exposure DESC]: one row for
    each sector that has a loan.  SQL leaves the order of rows of equal
    exposure open; here it is the one the insertion gives. *)
Definition sector_rows (ls : list Loan) : list SectorRow :=
  order_by_desc exposure_geb
    (map (sector_row ls) (nodup string_dec (map sector ls))).

(** The SQL texts of [metrics.py]. *)
Inductive query : Type :=
| nim_query (limit : nat)
    (* SELECT month, interest_income, interest_expense
       FROM financial_statements ORDER BY month DESC LIMIT limit *)
| profit_query (limit : nat)
    (* SELECT net_profit FROM financial_statements
       ORDER BY month DESC LIMIT limit *)
| cir_query (limit : nat)
    (* SELECT operating_cost, interest_income, fee_income
       FROM financial_statements ORDER BY month DESC LIMIT limit *)
| summary_query (limit : nat)
    (* SELECT interest_income, interest_expense, fee_income, operating_cost,
       net_profit FROM financial_statements ORDER BY month DESC LIMIT limit *)
| deposits_query
    (* SELECT COALESCE(SUM(balance), 0) as deposits FROM accounts
       WHERE account_type IN ('checking', 'savings') *)
| loans_query
    (* SELECT COALESCE(SUM(loan_amount), 0) as loans FROM loans *)
| total_deposits_query
    (* SELECT SUM(balance) as total_deposits FROM accounts
       WHERE account_type IN ('checking', 'savings') *)
| total_loans_query
    (* SELECT SUM(loan_amount) as total_loans FROM loans *)
| default_rate_query
    (* SELECT COUNT(CASE WHEN default_flag = 1 THEN 1 END) as defaulted_loans,
       COUNT( * ) as total_loans,
       SUM(CASE WHEN default_flag = 1 THEN loan_amount ELSE 0 END)
         as defaulted_amount,
       SUM(loan_amount) as total_amount FROM loans *)
| npl_query
    (* SELECT SUM(CASE WHEN default_flag = 1 THEN loan_amount ELSE 0 END)
         as npl_amount,
       SUM(loan_amount) as total_loans FROM loans *)
| exposure_query.
    (* SELECT sector, COUNT( * ) as loan_count,
       SUM(loan_amount) as total_exposure,
       SUM(CASE WHEN default_flag = 1 THEN loan_amount ELSE 0 END)
         as defaulted_exposure,
       COUNT(CASE WHEN default_flag = 1 THEN 1 END) as defaulted_count
       FROM loans GROUP BY sector ORDER BY total_exposure DESC *)

Definition num_column {A} (f : A -> Q) (rows : list A) : Series :=
  map (fun r => Num (f r)) rows.

(** The frame a query gives on readable tables. *)
Definition eval_window (q : query) (fs : list FinancialPeriod) : DataFrame :=
  match q with
  | nim_query n =>
      let w := recent_periods n fs in
      [("month", map (fun r => Str (month r)) w);
       ("interest_income", num_column interest_income w);
       ("interest_expense", num_column interest_expense w)]
  | profit_query n =>
      [("net_profit", num_column net_profit (recent_periods n fs))]
  | cir_query n =>
      let w := recent_periods n fs in
      [("operating_cost", num_column operating_cost w);
       ("interest_income", num_column interest_income w);
       ("fee_income", num_column fee_income w)]
  | summary_query n =>
      let w := recent_periods n fs in
      [("interest_income", num_column interest_income w);
       ("interest_expense", num_column interest_expense w);
       ("fee_income", num_column fee_income w);
       ("operating_cost", num_column operating_cost w);
       ("net_profit", num_column net_profit w)]
  | _ => empty_frame
  end.

Definition eval_accounts (q : query) (acs : list Account) : DataFrame :=
  match q with
  | deposits_query =>
      [("deposits", [sql_coalesce0 (sql_sum (deposit_balances acs))])]
  | total_deposits_query =>
      [("total_deposits", [sql_sum (deposit_balances acs)])]
  | _ => empty_frame
  end.

Definition eval_loans (q : query) (ls : list Loan) : DataFrame :=
  match q with
  | loans_query =>
      [("loans", [sql_coalesce0 (sql_sum (map loan_amount ls))])]
  | total_loans_query =>
      [("total_loans", [sql_sum (map loan_amount ls)])]
  | default_rate_query =>
      [("defaulted_loans", [sql_count (filter defaulted ls)]);
       ("total_loans", [sql_count ls]);
       ("defaulted_amount", [sql_sum (map defaulted_amount_of ls)]);
       ("total_amount", [sql_sum (map loan_amount ls)])]
  | npl_query =>
      [("npl_amount", [sql_sum (map defaulted_amount_of ls)]);
       ("total_loans", [sql_sum (map loan_amount ls)])]
  | exposure_query =>
      let rows := sector_rows ls in
      [("sector", map (fun r => Str (row_sector r)) rows);
       ("loan_count", num_column row_loan_count rows);
       ("total_exposure", num_column row_total_exposure rows);
       ("defaulted_exposure", num_column row_defaulted_exposure rows);
       ("defaulted_count", num_column row_defaulted_count rows)]
  | _ => empty_frame
  end.

Definition on_table {A} (t : option (list A)) (f : list A -> DataFrame)
  : result DataFrame :=
  match t with
  | Some rows => Ok (f rows)
  | None => Raise Sqlite3Error
  end.

(** [pd.read_sql_query(query, conn)] *)
Definition read_sql_query (q : query) (conn : Connection) : result DataFrame :=
  match q with
  | nim_query _ | profit_query _ | cir_query _ | summary_query _ =>
      on_table (financial_statements conn) (eval_window q)
  | deposits_query | total_deposits_query =>
      on_table (accounts conn) (eval_accounts q)
  | loans_query | total_loans_query | default_rate_query | npl_query
  | exposure_query =>
      on_table (loans conn) (eval_loans q)
  end.

(** ** metrics.py *)

(** The frame of the query, or the error of the query raised again. *)
Definition _safe_query_execution (conn : Connection) (q : query) : result DataFrame :=
  try_except
    (df <- read_sql_query q conn ;;
     ret df)
    (fun e => Raise e).

(** [float(value) if value is not None and not pd.isna(value) else default]
    for the value at [iloc[0]]; no value there is an [IndexError] and [float]
    of a text a [ValueError], both of which [_safe_get_value] turns into
    [default]. *)
Definition float_or (default : float) (value : option cell) : float :=
  match value with
  | Some (Num q) => q
  | Some NaN => default
  | Some (Str _) => default
  | None => default
  end.

(** The first value of a column as a float, [default] when the frame is
    empty, the column is absent or the value is missing. *)
Definition _safe_get_value (df : DataFrame) (column : string) (default : float) : float :=
  if df_empty df || negb (has_column df column) then default
  else
    match df.[column] with
    | Ok s => float_or default (iloc0 s)
    | Raise _ => default
    end.

(** [df[c].sum() if len(df) > 0 else 0.0] *)
Definition sum_or_zero (df : DataFrame) (c : string) : result float :=
  if (0 <? len df)%nat then s <- df.[c] ;; series_sum s else ret 0.

Definition calculate_net_interest_margin (conn : Connection) : result float :=
  try_except
    (df <- _safe_query_execution conn (nim_query MONTHS_FOR_ANALYSIS) ;;
     total_interest_income <- sum_or_zero df "interest_income" ;;
     total_interest_expense <- sum_or_zero df "interest_expense" ;;
     deposits_df <- _safe_query_execution conn deposits_query ;;
     loans_df <- _safe_query_execution conn loans_query ;;
     let deposits := _safe_get_value deposits_df "deposits" 0 in
     let loans := _safe_get_value loans_df "loans" 0 in
     let avg_assets := deposits + loans in
     if Qeq_bool avg_assets 0 then ret 0
     else
       let nim := ((total_interest_income - total_interest_expense) / avg_assets) * 100 in
       ret (py_round nim 2))
    (fun _ => ret 0).

Definition calculate_roa (conn : Connection) : result float :=
  try_except
    (profit_df <- _safe_query_execution conn (profit_query MONTHS_FOR_ANALYSIS) ;;
     total_profit <- sum_or_zero profit_df "net_profit" ;;
     deposits_df <- _safe_query_execution conn deposits_query ;;
     loans_df <- _safe_query_execution conn loans_query ;;
     let deposits := _safe_get_value deposits_df "deposits" 0 in
     let loans := _safe_get_value loans_df "loans" 0 in
     let total_assets := deposits + loans in
     if Qeq_bool total_assets 0 then ret 0
     else
       let roa := (total_profit / total_assets) * 100 in
       ret (py_round roa 2))
    (fun _ => ret 0).

Definition calculate_roe (conn : Connection) : result float :=
  try_except
    (profit_df <- _safe_query_execution conn (profit_query MONTHS_FOR_ANALYSIS) ;;
     total_profit <- sum_or_zero profit_df "net_profit" ;;
     deposits_df <- _safe_query_execution conn deposits_query ;;
     loans_df <- _safe_query_execution conn loans_query ;;
     let deposits := _safe_get_value deposits_df "deposits" 0 in
     let loans := _safe_get_value loans_df "loans" 0 in
     let total_assets := deposits + loans in
     let equity := total_assets * EQUITY_PERCENTAGE in
     if Qeq_bool equity 0 then ret 0
     else
       let roe := (total_profit / equity) * 100 in
       ret (py_round roe 2))
    (fun _ => ret 0).

Definition calculate_cost_to_income_ratio (conn : Connection) : result float :=
  try_except
    (df <- _safe_query_execution conn (cir_query MONTHS_FOR_ANALYSIS) ;;
     total_costs <- sum_or_zero df "operating_cost" ;;
     total_income <-
       (if (0 <? len df)%nat
        then a <- (s <- df.["interest_income"] ;; series_sum s) ;;
             b <- (s <- df.["fee_income"] ;; series_sum s) ;;
             ret (a + b)
        else ret 0) ;;
     if Qeq_bool total_income 0 then ret 0
     else
       let cir := (total_costs / total_income) * 100 in
       ret (py_round cir 2))
    (fun _ => ret 0).

Definition calculate_loan_to_deposit_ratio (conn : Connection) : result float :=
  try_except
    (deposits_df <- _safe_query_execution conn total_deposits_query ;;
     loans_df <- _safe_query_execution conn total_loans_query ;;
     let total_deposits := _safe_get_value deposits_df "total_deposits" 0 in
     let total_loans := _safe_get_value loans_df "total_loans" 0 in
     if Qeq_bool total_deposits 0 then ret 0
     else
       let ldr := (total_loans / total_deposits) * 100 in
       ret (py_round ldr 2))
    (fun _ => ret 0).

Definition calculate_default_rate (conn : Connection) : result (float * float) :=
  try_except
    (df <- _safe_query_execution conn default_rate_query ;;
     let total_loans := _safe_get_value df "total_loans" 0 in
     let defaulted_loans := _safe_get_value df "defaulted_loans" 0 in
     let defaulted_amount := _safe_get_value df "defaulted_amount" 0 in
     let total_amount := _safe_get_value df "total_amount" 0 in
     if Qeq_bool total_loans 0 then ret (0, 0)
     else
       let rate_by_count := (defaulted_loans / total_loans) * 100 in
       let rate_by_value :=
         if Qltb 0 total_amount then (defaulted_amount / total_amount) * 100 else 0 in
       ret (py_round rate_by_count 2, py_round rate_by_value 2))
    (fun _ => ret (0, 0)).

Definition calculate_npl_ratio (conn : Connection) : result float :=
  try_except
    (df <- _safe_query_execution conn npl_query ;;
     let total_loans := _safe_get_value df "total_loans" 0 in
     let npl_amount := _safe_get_value df "npl_amount" 0 in
     if Qeq_bool total_loans 0 then ret 0
     else
       let npl_ratio := (npl_amount / total_loans) * 100 in
       ret (py_round npl_ratio 2))
    (fun _ => ret 0).

(** [(df['total_exposure'] / df['total_exposure'].sum()) * 100] *)
Definition exposure_share (df : DataFrame) : result Series :=
  a <- df.["total_exposure"] ;;
  b <- df.["total_exposure"] ;;
  total <- series_sum b ;;
  r <- series_div_scalar a total ;;
  series_mul_scalar r 100.

Definition calculate_credit_exposure_by_sector (conn : Connection) : result DataFrame :=
  try_except
    (df <- _safe_query_execution conn exposure_query ;;
     if (len df =? 0)%nat then ret df
     else
       defaulted_count <- df.["defaulted_count"] ;;
       loan_count <- df.["loan_count"] ;;
       r <- series_div defaulted_count loan_count ;;
       default_rate <- series_mul_scalar r 100 ;;
       let df := setitem df "default_rate" default_rate in
       exposure_pct <- exposure_share df ;;
       let df := setitem df "exposure_pct" exposure_pct in
       ret df)
    (fun _ => ret empty_frame).

(** The liquidity points of [calculate_bank_risk_index] for a given LDR. *)
Definition liquidity_score (ldr : float) : float :=
  let ldr_score :=
    if Qltb ldr 80 then (80 - ldr) * (1 # 2)
    else if Qltb 100 ldr then (ldr - 100) * (1 # 2)
    else 0 in
  py_min ldr_score 20.

(** The concentration points of [calculate_bank_risk_index] for the frame of
    exposures. *)
Definition concentration_score (exposure_df : DataFrame) : result float :=
  if (0 <? len exposure_df)%nat then
    exposure_pct <- exposure_share exposure_df ;;
    let exposure_df := setitem exposure_df "exposure_pct" exposure_pct in
    p <- exposure_df.["exposure_pct"] ;;
    sq <- series_square p ;;
    hhi <- series_sum sq ;;
    ret ((hhi / 10000) * 10)
  else ret 10.

(** The same concentration points in binary64, the arithmetic the program
    runs in, from a [total_exposure] column without missing values:
    [(total_exposure / total_exposure.sum()) * 100], the sum of the squares,
    [(hhi / 10000) * 10].  [sum_binary64] adds from the left. *)
Definition sum_binary64 (s : list PrimFloat.float) : PrimFloat.float :=
  fold_left PrimFloat.add s 0%float.

Definition concentration_score_binary64 (total_exposure : list PrimFloat.float)
  : PrimFloat.float :=
  let total := sum_binary64 total_exposure in
  let exposure_pct := map (fun x => (x / total * 100)%float) total_exposure in
  let hhi := sum_binary64 (map (fun p => (p * p)%float) exposure_pct) in
  (hhi / 10000 * 10)%float.

(** The four contributions of [calculate_bank_risk_index], in the order in
    which the function computes them: NPL, liquidity, default,
    concentration. *)
Definition risk_scores (conn : Connection) : result (float * float * float * float) :=
  npl_ratio <- calculate_npl_ratio conn ;;
  let npl_score := py_min (npl_ratio * 10) 40 in
  ldr <- calculate_loan_to_deposit_ratio conn ;;
  let ldr_score := liquidity_score ldr in
  '(_, default_rate_value) <- calculate_default_rate conn ;;
  let default_score := py_min (default_rate_value * 3) 30 in
  exposure_df <- calculate_credit_exposure_by_sector conn ;;
  concentration_score <- concentration_score exposure_df ;;
  ret (npl_score, ldr_score, default_score, concentration_score).

Definition calculate_bank_risk_index (conn : Connection) : result float :=
  try_except
    ('(npl_score, ldr_score, default_score, concentration_score) <- risk_scores conn ;;
     let total_risk_score := npl_score + ldr_score + default_score + concentration_score in
     let risk_index := py_min total_risk_score 100 in
     ret (py_round risk_index 2))
    (fun _ => ret 0).

Definition zero_summary : list (string * float) :=
  [("total_assets", 0); ("total_deposits", 0); ("total_loans", 0);
   ("interest_income", 0); ("interest_expense", 0); ("fee_income", 0);
   ("operating_cost", 0); ("net_profit", 0)].

Definition get_financial_summary (conn : Connection) : result (list (string * float)) :=
  try_except
    (df <- _safe_query_execution conn (summary_query MONTHS_FOR_ANALYSIS) ;;
     total_interest_income <- sum_or_zero df "interest_income" ;;
     total_interest_expense <- sum_or_zero df "interest_expense" ;;
     total_fee_income <- sum_or_zero df "fee_income" ;;
     total_operating_cost <- sum_or_zero df "operating_cost" ;;
     total_net_profit <- sum_or_zero df "net_profit" ;;
     deposits_df <- _safe_query_execution conn total_deposits_query ;;
     loans_df <- _safe_query_execution conn total_loans_query ;;
     let total_deposits := _safe_get_value deposits_df "total_deposits" 0 in
     let total_loans := _safe_get_value loans_df "total_loans" 0 in
     ret [("total_assets", total_deposits + total_loans);
          ("total_deposits", total_deposits);
          ("total_loans", total_loans);
          ("interest_income", total_interest_income);
          ("interest_expense", total_interest_expense);
          ("fee_income", total_fee_income);
          ("operating_cost", total_operating_cost);
          ("net_profit", total_net_profit)])
    (fun _ => ret zero_summary).

(** ** app.py

    The computations of the pages that use the calculators; what the pages
    draw with them is left out. *)

(** [abs(x)] *)
Definition py_abs (x : float) : float := Qabs x.

(** The decimal digits of a natural number, and one digit. *)
Definition decimal (n : Z) : string := NilZero.string_of_uint (N.to_uint (Z.to_N n)).

(** [f"{x:.2f}"]: the sign of a negative number, the integer digits, a point
    and two digits, of [x] rounded to the nearest hundredth, ties to even. *)
Definition format_2f (x : float) : string :=
  let n := round_half_even (py_abs x * 100) in
  (if Qltb x 0 then "-" else "")
  ++ decimal (n / 100) ++ "." ++ decimal (n / 10 mod 10) ++ decimal (n mod 10).

(** The [except (TypeError, ValueError)] of the two functions is for values
    that are no numbers; a float never takes it. *)
Definition format_currency (value : float) : string :=
  if Qle_bool 1000000000 value then "$" ++ format_2f (value / 1000000000) ++ "B"
  else if Qle_bool 1000000 value then "$" ++ format_2f (value / 1000000) ++ "M"
  else if Qle_bool 1000 value then "$" ++ format_2f (value / 1000) ++ "K"
  else "$" ++ format_2f value.

Definition format_percentage (value : float) : string := format_2f value ++ "%".

(** The risk level of [show_bank_overview] and of [show_risk_overview]. *)
Definition risk_level (risk_index : float) : string :=
  if Qltb risk_index 30 then "Baixo"
  else if Qltb risk_index 60 then "Médio"
  else "Alto".

(** The health status of [show_bank_overview]. *)
Definition health_status (risk_index : float) : string :=
  let health_score := 100 - risk_index in
  if Qle_bool 70 health_score then "Excelente"
  else if Qle_bool 50 health_score then "Boa"
  else "Atenção Necessária".

(** What [show_bank_overview] loads inside its [try]: the summary and the
    five indicators of the page. *)
Definition overview_metrics (conn : Connection)
  : result (list (string * float) * float * float * float * float * float) :=
  summary <- get_financial_summary conn ;;
  roa <- calculate_roa conn ;;
  roe <- calculate_roe conn ;;
  nim <- calculate_net_interest_margin conn ;;
  cir <- calculate_cost_to_income_ratio conn ;;
  risk_index <- calculate_bank_risk_index conn ;;
  ret (summary, roa, roe, nim, cir, risk_index).

(** The [risk_components] of the chart of [show_risk_overview], after the
    calls the page makes before it. *)
Definition risk_components (conn : Connection) : result (list (string * float)) :=
  '(default_rate_count, default_rate_value) <- calculate_default_rate conn ;;
  npl_ratio <- calculate_npl_ratio conn ;;
  risk_index <- calculate_bank_risk_index conn ;;
  exposure_df <- calculate_credit_exposure_by_sector conn ;;
  ldr <- calculate_loan_to_deposit_ratio conn ;;
  ret [("NPL Ratio", py_min (npl_ratio * 10) 40);
       ("Loan-to-Deposit", py_min (py_abs (ldr - 90) * (1 # 2)) 20);
       ("Default Rate", py_min (default_rate_value * 3) 30);
       ("Concentração", 10)].

(** ** database.py: the financial statements

    The generator of NumPy is the stream of its uniform samples in [0, 1)
    and a position in it; a write with [to_sql(..., if_exists='replace')]
    sets the table. *)

(** [np.random.uniform(low, high)] for the sample [u] *)
Definition uniform (u low high : Q) : Q := low + (high - low) * u.

(** [str.zfill(width)] of a string of digits *)
Definition zfill (width : nat) (s : string) : string :=
  String.concat "" (repeat "0" (width - String.length s)) ++ s.

(** [date.strftime('%Y-%m')] *)
Definition strftime_Y_m (year month : Z) : string :=
  zfill 4 (decimal year) ++ "-" ++ zfill 2 (decimal month).

(** [datetime(year, month, 1) <= datetime(2024, 12, 31)] *)
Definition before_end_date (year month : Z) : bool :=
  (year <? 2024)%Z
  || ((year =? 2024)%Z && ((month <? 12)%Z || ((month =? 12)%Z && (1 <=? 31)%Z))).

(** The statement of one month, from four samples. *)
Definition statement_of (month_str : string) (month_counter : Z) (u1 u2 u3 u4 : Q)
  : FinancialPeriod :=
  let growth_factor := 1 + inject_Z month_counter * (1 # 100) in
  let interest_income := uniform u1 8000000 12000000 * growth_factor in
  let interest_expense := interest_income * uniform u2 (3 # 10) (5 # 10) in
  let fee_income := uniform u3 2000000 4000000 * growth_factor in
  let operating_cost :=
    uniform u4 5000000 7000000 * (1 + inject_Z month_counter * (5 # 1000)) in
  let net_profit := interest_income - interest_expense + fee_income - operating_cost in
  {| month := month_str;
     interest_income := py_round interest_income 2;
     interest_expense := py_round interest_expense 2;
     fee_income := py_round fee_income 2;
     operating_cost := py_round operating_cost 2;
     net_profit := py_round net_profit 2 |}.

(** The [while] loop of [populate_financial_statements] on the year and the
    month of [current_date]: [None] when the fuel does not reach the end
    date. *)
Fixpoint statements_loop (fuel : nat) (rng : nat -> Q) (pos : nat)
    (current_year current_month month_counter : Z) (statements : list FinancialPeriod)
  : option (list FinancialPeriod * nat) :=
  match fuel with
  | O => None
  | S fuel' =>
      if before_end_date current_year current_month then
        let month_str := strftime_Y_m current_year current_month in
        let row := statement_of month_str month_counter
                     (rng pos) (rng (pos + 1)%nat) (rng (pos + 2)%nat) (rng (pos + 3)%nat) in
        let statements := (statements ++ [row])%list in
        let '(next_year, next_month) :=
          if (current_month =? 12)%Z then ((current_year + 1)%Z, 1%Z)
          else (current_year, (current_month + 1)%Z) in
        statements_loop fuel' rng (pos + 4) next_year next_month (month_counter + 1)
                        statements
      else Some (statements, pos)
  end.

Definition populate_financial_statements (fuel : nat) (rng : nat -> Q) (pos : nat)
    (conn : Connection) : option (Connection * nat) :=
  match statements_loop fuel rng pos 2023 1 0 [] with
  | Some (statements, pos') =>
      Some ({| financial_statements := Some statements;
               accounts := accounts conn;
               loans := loans conn |}, pos')
  | None => None
  end.

(** ** Test data: the fixture of [tests/test_metrics.py] and the empty source *)

Definition period (m : string) : FinancialPeriod :=
  {| month := m; interest_income := 1000000; interest_expense := 400000;
     fee_income := 200000; operating_cost := 500000; net_profit := 300000 |}.

Definition test_db : Connection :=
  {| financial_statements := Some (map period
       ["2024-01"; "2024-02"; "2024-03"; "2024-04"; "2024-05"; "2024-06";
        "2024-07"; "2024-08"; "2024-09"; "2024-10"; "2024-11"; "2024-12"]);
     accounts := Some
       [ {| account_id := "ACC001"; account_customer_id := "CUST001";
            account_type := "checking"; balance := 100000;
            account_interest_rate := 2 # 100 |};
         {| account_id := "ACC002"; account_customer_id := "CUST001";
            account_type := "savings"; balance := 200000;
            account_interest_rate := 5 # 100 |} ];
     loans := Some
       [ {| loan_id := "LOAN001"; loan_customer_id := "CUST001";
            sector := "Technology"; loan_amount := 500000;
            loan_interest_rate := 10 # 100; default_flag := 0 |};
         {| loan_id := "LOAN002"; loan_customer_id := "CUST002";
            sector := "Retail"; loan_amount := 300000;
            loan_interest_rate := 12 # 100; default_flag := 1 |} ] |}.

Definition empty_db : Connection :=
  {| financial_statements := Some []; accounts := Some []; loans := Some [] |}.

(** A source none of whose tables can be read. *)
Definition broken_db : Connection :=
  {| financial_statements := None; accounts := None; loans := None |}.

(** Sources the schema ([loan_amount REAL NOT NULL]) admits and the data
    model ([loan_amount > 0]) does not: loans with a negative amount or with
    the amount 0. *)
Definition loan_of (s : string) (amount : Q) (flag : Z) : Loan :=
  {| loan_id := "LOAN"; loan_customer_id := "CUST"; sector := s;
     loan_amount := amount; loan_interest_rate := 10 # 100; default_flag := flag |}.

Definition negative_loan_db : Connection :=
  {| financial_statements := Some []; accounts := Some [];
     loans := Some [loan_of "Retail" (-100) 1] |}.


Definition four_sector_db : Connection :=
  {| financial_statements := Some []; accounts := Some [];
     loans := Some [loan_of "Retail" 100 0; loan_of "Technology" 100 0;
                    loan_of "Energy" 100 0; loan_of "Healthcare" (-100) 0] |}.

Definition zero_loan_db : Connection :=
  {| financial_statements := Some []; accounts := Some [];
     loans := Some [loan_of "Retail" 0 0] |}.

(** A source of the data model with all its loans in one sector. *)
Definition retail_db : Connection :=
  {| financial_statements := Some []; accounts := Some [];
     loans := Some [loan_of "Retail" 500000 0; loan_of "Retail" 300000 1] |}.

(** ** Vocabulary of the properties *)

(** A value with at most two decimal places. *)
Definition two_decimals (x : float) : Prop := exists z : Z, x * 100 == inject_Z z.

(** A result that, when the call returns, has two decimal places. *)
Definition rounded_or_raise (r : result float) : Prop :=
  match r with
  | Ok v => two_decimals v
  | Raise _ => True
  end.

Definition both_rounded_or_raise (r : result (float * float)) : Prop :=
  match r with
  | Ok (a, b) => two_decimals a /\ two_decimals b
  | Raise _ => True
  end.

(** The balance-sheet sums: the sum of loan_amount, that of the defaulted
    loans, the sum of balance over the deposit accounts. *)
Definition total_loans_of (ls : list Loan) : Q := Qsum (map loan_amount ls).

Definition defaulted_amount_in (ls : list Loan) : Q := Qsum (map defaulted_amount_of ls).

Definition total_deposits_of (acs : list Account) : Q := Qsum (deposit_balances acs).

(** The data model gives every loan a positive amount. *)
Definition positive_amounts (ls : list Loan) : Prop :=
  Forall (fun l => 0 < loan_amount l) ls.

(** A source whose loans, when they can be read, are those of the data
    model. *)
Definition valid_loans (conn : Connection) : Prop :=
  match loans conn with
  | Some ls => positive_amounts ls
  | None => True
  end.

(** A source whose loan amounts, when they can be read, do not sum to a
    negative total. *)
Definition nonnegative_total (conn : Connection) : Prop :=
  match loans conn with
  | Some ls => 0 <= total_loans_of ls
  | None => True
  end.

(** One sector in the table: all loans carry the same label. *)
Definition single_sector (ls : list Loan) : Prop :=
  exists s, forall l, In l ls -> sector l = s.

(** The words of the specification: [window] holds the [n] most recent
    periods of [table], or all of them when there are fewer, the most recent
    first. *)
Definition most_recent_periods (n : nat) (table window : list FinancialPeriod) : Prop :=
  exists older,
    Permutation table (window ++ older) /\
    List.length window = Nat.min n (List.length table) /\
    StronglySorted (fun a b => String.leb (month b) (month a) = true) window /\
    Forall (fun a => Forall (fun b => String.leb (month b) (month a) = true) older)
           window.

(** The cells the element-wise operations produce on numbers: [x / y],
    [c * k] and [c * c]. *)
Definition ratio_cell (x y : Q) : cell :=
  if Qeq_bool y 0 then NaN else Num (x / y).

Definition scale_cell (k : Q) (c : cell) : cell :=
  match c with
  | Num x => Num (x * k)
  | _ => NaN
  end.

Definition square_cell (c : cell) : cell :=
  match c with
  | Num x => Num (x * x)
  | _ => NaN
  end.

(** The share of a total, in percent: [x / total * 100]. *)
Definition pct_cell (total x : Q) : cell := scale_cell 100 (ratio_cell x total).

Definition Qsquare (x : Q) : Q := x * x.

(** The Herfindahl-Hirschman index of a list of exposures: the sum of the
    squares of their shares in percent. *)
Definition hhi_of (xs : list Q) : Q :=
  let total := Qsum xs in
  if Qeq_bool total 0 then 0
  else Qsum (map (fun x => (x / total * 100) * (x / total * 100)) xs).

(** The [total_exposure] column of the sector query. *)
Definition sector_totals (ls : list Loan) : list Q :=
  map row_total_exposure (sector_rows ls).

(** The frame [calculate_credit_exposure_by_sector] is shown to return on a
    readable loans table ([exposure_readable]). *)
Definition exposure_frame (ls : list Loan) : DataFrame :=
  let rows := sector_rows ls in
  let df := eval_loans exposure_query ls in
  if (List.length rows =? 0)%nat then df
  else
    setitem
      (setitem df "default_rate"
         (map (fun r => scale_cell 100
                          (ratio_cell (row_defaulted_count r) (row_loan_count r)))
              rows))
      "exposure_pct"
      (map (fun r => pct_cell (Qsum (sector_totals ls)) (row_total_exposure r)) rows).

(** The concentration points [calculate_bank_risk_index] is shown to compute
    ([concentration_score_exposure]). *)
Definition concentration_of (conn : Connection) : float :=
  match loans conn with
  | Some ls =>
      if (List.length (sector_rows ls) =? 0)%nat then 10
      else hhi_of (sector_totals ls) / 10000 * 10
  | None => 10
  end.

(** The digits [format_2f] prints for a number of hundredths. *)
Definition hundredths (n : Z) : string :=
  decimal (n / 100) ++ "." ++ decimal (n / 10 mod 10) ++ decimal (n mod 10).

(** Two calls that both return, with equal numbers. *)
Definition agree (r r' : result float) : Prop :=
  returns r (fun v => returns r' (fun v' => v == v')).

Definition agree_pair (r r' : result (float * float)) : Prop :=
  returns r (fun p => returns r' (fun p' => fst p == fst p' /\ snd p == snd p')).

(** Strings in strictly ascending order. *)
Fixpoint strictly_ascending (l : list string) : bool :=
  match l with
  | [] => true
  | s :: rest => forallb (fun t => negb (String.leb t s)) rest && strictly_ascending rest
  end.

(** The months of 2023 and 2024. *)
Definition months_2023_2024 : list string :=
  ["2023-01"; "2023-02"; "2023-03"; "2023-04"; "2023-05"; "2023-06";
   "2023-07"; "2023-08"; "2023-09"; "2023-10"; "2023-11"; "2023-12";
   "2024-01"; "2024-02"; "2024-03"; "2024-04"; "2024-05"; "2024-06";
   "2024-07"; "2024-08"; "2024-09"; "2024-10"; "2024-11"; "2024-12"].

(** The statements [populate_financial_statements] is shown to write
    ([statements_loop_result]): the one of the [i]-th month takes the four
    samples from position [4 * i] on. *)
Definition generated_statements (rng : nat -> Q) (pos : nat) : list FinancialPeriod :=
  map (fun i =>
         statement_of (nth i months_2023_2024 "") (Z.of_nat i)
           (rng (pos + 4 * i)%nat) (rng (pos + 4 * i + 1)%nat)
           (rng (pos + 4 * i + 2)%nat) (rng (pos + 4 * i + 3)%nat))
      (seq 0 24).

(** * Properties *)

(** ** Python scalars *)

Lemma Qltb_true (x y : Q) : Qltb x y = true <-> x < y.
Proof.
  unfold Qltb. rewrite negb_true_iff, <- not_true_iff_false, Qle_bool_iff.
  split; [apply Qnot_le_lt | apply Qlt_not_le].
Qed.

Lemma Qltb_false (x y : Q) : Qltb x y = false <-> y <= x.
Proof.
  unfold Qltb. rewrite negb_false_iff. apply Qle_bool_iff.
Qed.

Lemma Qeq_bool_false (x y : Q) : Qeq_bool x y = false <-> ~ x == y.
Proof.
  rewrite <- not_true_iff_false, Qeq_bool_iff. tauto.
Qed.

Lemma py_min_cases (a b : float) :
  (b < a /\ py_min a b = b) \/ (a <= b /\ py_min a b = a).
Proof.
  unfold py_min. destruct (Qltb b a) eqn:E.
  - left. split; [now apply Qltb_true | reflexivity].
  - right. split; [now apply Qltb_false | reflexivity].
Qed.

Lemma py_min_le_r (a b : float) : py_min a b <= b.
Proof. destruct (py_min_cases a b) as [[H ->]|[H ->]]; lra. Qed.

Lemma py_min_le_l (a b : float) : py_min a b <= a.
Proof. destruct (py_min_cases a b) as [[H ->]|[H ->]]; lra. Qed.

Lemma py_min_ge (a b c : float) : c <= a -> c <= b -> c <= py_min a b.
Proof. intros; destruct (py_min_cases a b) as [[H1 ->]|[H1 ->]]; lra. Qed.

Lemma round_half_even_cases (x : Q) :
  round_half_even x = Qfloor x \/
  (round_half_even x = (Qfloor x + 1)%Z /\ inject_Z (Qfloor x) < x).
Proof.
  unfold round_half_even.
  destruct (Qltb (x - inject_Z (Qfloor x)) (1 # 2)) eqn:E1; [now left|].
  apply Qltb_false in E1.
  destruct (Qltb (1 # 2) (x - inject_Z (Qfloor x))); [right; split; [easy | lra]|].
  destruct (Z.even (Qfloor x)); [now left | right; split; [easy | lra]].
Qed.

Lemma round_half_even_lower (x : Q) (a : Z) :
  inject_Z a <= x -> (a <= round_half_even x)%Z.
Proof.
  intros H. apply Qfloor_resp_le in H. rewrite Qfloor_Z in H.
  destruct (round_half_even_cases x) as [-> | [-> _]]; lia.
Qed.

Lemma round_half_even_upper (x : Q) (b : Z) :
  x <= inject_Z b -> (round_half_even x <= b)%Z.
Proof.
  intros H. pose proof (Qfloor_le x) as Hf.
  destruct (round_half_even_cases x) as [-> | [-> Hlt]].
  - rewrite Zle_Qle. lra.
  - assert (inject_Z (Qfloor x) < inject_Z b) as Hb by lra.
    rewrite <- Zlt_Qlt in Hb. lia.
Qed.

Lemma two_decimals_0 : two_decimals 0.
Proof. exists 0%Z. reflexivity. Qed.

Lemma py_round_2 (x : float) :
  py_round x 2 == inject_Z (round_half_even (x * 100)) * (1 # 100).
Proof. reflexivity. Qed.

Lemma py_round_two_decimals (x : float) : two_decimals (py_round x 2).
Proof. exists (round_half_even (x * 100)). rewrite py_round_2. lra. Qed.

Lemma py_round_lower (x : float) (a : Z) :
  inject_Z a <= x * 100 -> inject_Z a <= py_round x 2 * 100.
Proof.
  intros H. apply round_half_even_lower in H.
  rewrite Zle_Qle in H. rewrite py_round_2. lra.
Qed.

Lemma py_round_upper (x : float) (b : Z) :
  x * 100 <= inject_Z b -> py_round x 2 * 100 <= inject_Z b.
Proof.
  intros H. apply round_half_even_upper in H.
  rewrite Zle_Qle in H. rewrite py_round_2. lra.
Qed.

Lemma py_round_nonneg (x : float) : 0 <= x -> 0 <= py_round x 2.
Proof.
  intros H. pose proof (py_round_lower x 0) as L.
  change (inject_Z 0) with 0 in L. lra.
Qed.

Lemma py_round_le_100 (x : float) : x <= 100 -> py_round x 2 <= 100.
Proof.
  intros H. pose proof (py_round_upper x 10000) as L.
  change (inject_Z 10000) with 10000 in L. lra.
Qed.

(** Rounding a value that has two decimal places leaves it unchanged. *)
Lemma py_round_fixed (x : float) : two_decimals x -> py_round x 2 == x.
Proof.
  intros [z Hz].
  pose proof (py_round_lower x z) as H1. pose proof (py_round_upper x z) as H2.
  lra.
Qed.

(** ** The calculators on readable tables *)

Lemma float_or_sql_sum (xs : list Q) : float_or 0 (Some (sql_sum xs)) = Qsum xs.
Proof. destruct xs; reflexivity. Qed.

Lemma float_or_coalesce (xs : list Q) :
  float_or 0 (Some (sql_coalesce0 (sql_sum xs))) = Qsum xs.
Proof. destruct xs; reflexivity. Qed.

Lemma float_or_count {A} (xs : list A) :
  float_or 0 (Some (sql_count xs)) = count_of xs.
Proof. reflexivity. Qed.

(** Evaluation of a calculator once the tables it reads are known. *)
Ltac run_calculator :=
  unfold _safe_query_execution, read_sql_query, on_table;
  repeat match goal with H : _ = Some _ |- _ => rewrite H end;
  repeat match goal with H : _ = None |- _ => rewrite H end;
  cbn -[Qsum sql_sum sql_count count_of Qeq_bool Qltb py_round Qdiv Qmult Qplus Qminus
        recent_periods sector_rows deposit_balances float_or];
  rewrite ?float_or_sql_sum, ?float_or_coalesce, ?float_or_count.

Lemma npl_ratio_readable (conn : Connection) (ls : list Loan) :
  loans conn = Some ls ->
  calculate_npl_ratio conn =
  Ok (if Qeq_bool (total_loans_of ls) 0 then 0
      else py_round (defaulted_amount_in ls / total_loans_of ls * 100) 2).
Proof.
  intros H. unfold calculate_npl_ratio. run_calculator.
  unfold total_loans_of, defaulted_amount_in.
  now destruct (Qeq_bool _ 0).
Qed.

Lemma npl_ratio_unreadable (conn : Connection) :
  loans conn = None -> calculate_npl_ratio conn = Ok 0.
Proof. intros H. unfold calculate_npl_ratio. now run_calculator. Qed.

Lemma series_sum_num_column {A} (f : A -> Q) (rows : list A) :
  series_sum (num_column f rows) = Ok (Qsum (map f rows)).
Proof.
  induction rows as [|r rows IH]; [reflexivity|].
  cbn [num_column map series_sum Qsum] in *. unfold num_column in IH.
  now rewrite IH.
Qed.

Lemma sum_or_zero_column {A} (df : DataFrame) (c : string) (f : A -> Q) (rows : list A) :
  len df = List.length rows ->
  df.[c] = Ok (num_column f rows) ->
  sum_or_zero df c = Ok (Qsum (map f rows)).
Proof.
  intros Hlen Hc. unfold sum_or_zero. rewrite Hlen, Hc.
  destruct rows; [reflexivity|].
  cbn [List.length Nat.ltb Nat.leb bind]. apply series_sum_num_column.
Qed.

Ltac window_sum f :=
  rewrite (sum_or_zero_column _ _ f (recent_periods MONTHS_FOR_ANALYSIS _))
    by (cbn; unfold num_column; rewrite ?length_map; reflexivity).

Ltac window_sums :=
  try window_sum interest_income; try window_sum interest_expense;
  try window_sum fee_income; try window_sum operating_cost;
  try window_sum net_profit.

Ltac start_calculator :=
  unfold _safe_query_execution, read_sql_query, on_table;
  repeat match goal with H : _ = Some _ |- _ => rewrite H end;
  repeat match goal with H : _ = None |- _ => rewrite H end;
  cbn [try_except bind ret eval_window eval_accounts eval_loans];
  window_sums.

Section Readable.
Variables (conn : Connection)
          (fs : list FinancialPeriod) (acs : list Account) (ls : list Loan).
Hypotheses (Hfs : financial_statements conn = Some fs)
           (Hacs : accounts conn = Some acs)
           (Hls : loans conn = Some ls).

Let w := recent_periods MONTHS_FOR_ANALYSIS fs.
Let total_assets := total_deposits_of acs + total_loans_of ls.

Lemma nim_readable :
  calculate_net_interest_margin conn =
  Ok (if Qeq_bool total_assets 0 then 0
      else py_round
             ((Qsum (map interest_income w) - Qsum (map interest_expense w))
              / total_assets * 100) 2).
Proof.
  unfold calculate_net_interest_margin. start_calculator. run_calculator.
  fold (total_deposits_of acs) (total_loans_of ls) total_assets.
  now destruct (Qeq_bool total_assets 0).
Qed.

Lemma roa_readable :
  calculate_roa conn =
  Ok (if Qeq_bool total_assets 0 then 0
      else py_round (Qsum (map net_profit w) / total_assets * 100) 2).
Proof.
  unfold calculate_roa. start_calculator. run_calculator.
  fold (total_deposits_of acs) (total_loans_of ls) total_assets.
  now destruct (Qeq_bool total_assets 0).
Qed.

Lemma roe_readable :
  calculate_roe conn =
  Ok (if Qeq_bool (total_assets * EQUITY_PERCENTAGE) 0 then 0
      else py_round
             (Qsum (map net_profit w) / (total_assets * EQUITY_PERCENTAGE) * 100) 2).
Proof.
  unfold calculate_roe. start_calculator. run_calculator.
  fold (total_deposits_of acs) (total_loans_of ls) total_assets.
  now destruct (Qeq_bool (total_assets * EQUITY_PERCENTAGE) 0).
Qed.

Lemma ldr_readable :
  calculate_loan_to_deposit_ratio conn =
  Ok (if Qeq_bool (total_deposits_of acs) 0 then 0
      else py_round (total_loans_of ls / total_deposits_of acs * 100) 2).
Proof.
  unfold calculate_loan_to_deposit_ratio. start_calculator. run_calculator.
  fold (total_deposits_of acs) (total_loans_of ls).
  now destruct (Qeq_bool (total_deposits_of acs) 0).
Qed.
End Readable.

#[global] Instance Qltb_comp : Proper (Qeq ==> Qeq ==> eq) Qltb.
Proof.
  intros x x' Hx y y' Hy. apply eq_true_iff_eq.
  rewrite !Qltb_true. now rewrite Hx, Hy.
Qed.

#[global] Instance round_half_even_comp : Proper (Qeq ==> eq) round_half_even.
Proof.
  intros x y H. unfold round_half_even.
  rewrite (Qfloor_comp _ _ H).
  assert (x - inject_Z (Qfloor y) == y - inject_Z (Qfloor y)) as E by now rewrite H.
  now rewrite (Qltb_comp _ _ E _ _ (Qeq_refl _)), (Qltb_comp _ _ (Qeq_refl _) _ _ E).
Qed.

#[global] Instance py_round_comp : Proper (Qeq ==> eq ==> Qeq) py_round.
Proof.
  intros x y H n ? <-. unfold py_round. now rewrite H.
Qed.

#[global] Instance py_min_comp : Proper (Qeq ==> Qeq ==> Qeq) py_min.
Proof.
  intros a a' Ha b b' Hb. unfold py_min. rewrite Ha, Hb.
  now destruct (Qltb b' a').
Qed.

Lemma Qeq_bool_comp_l (x y z : Q) : x == y -> Qeq_bool x z = Qeq_bool y z.
Proof.
  intros H. apply eq_true_iff_eq. rewrite !Qeq_bool_iff. now rewrite H.
Qed.

Section ReadableLoans.
Variables (conn : Connection) (ls : list Loan).
Hypothesis Hls : loans conn = Some ls.

Let n := count_of ls.
Let d := count_of (filter defaulted ls).

Lemma default_rate_readable :
  calculate_default_rate conn =
  Ok (if Qeq_bool n 0 then (0, 0)
      else (py_round (d / n * 100) 2,
            py_round (if Qltb 0 (total_loans_of ls)
                      then defaulted_amount_in ls / total_loans_of ls * 100
                      else 0) 2)).
Proof.
  unfold calculate_default_rate. start_calculator. run_calculator.
  fold n d (total_loans_of ls) (defaulted_amount_in ls).
  now destruct (Qeq_bool n 0).
Qed.
End ReadableLoans.

Section ReadableStatements.
Variables (conn : Connection) (fs : list FinancialPeriod).
Hypothesis Hfs : financial_statements conn = Some fs.

Let w := recent_periods MONTHS_FOR_ANALYSIS fs.
Let total_income := Qsum (map interest_income w) + Qsum (map fee_income w).

Lemma cir_readable :
  returns (calculate_cost_to_income_ratio conn)
    (fun v => v == if Qeq_bool total_income 0 then 0
                   else py_round (Qsum (map operating_cost w) / total_income * 100) 2).
Proof.
  unfold calculate_cost_to_income_ratio. start_calculator.
  cbn -[Qsum Qeq_bool py_round Qdiv Qmult Qplus recent_periods].
  unfold num_column. rewrite !length_map. fold w.
  destruct w as [|r w'] eqn:E.
  - reflexivity.
  - cbn [List.length Nat.ltb Nat.leb].
    change (map (fun r0 => Num (interest_income r0)) (r :: w'))
      with (num_column interest_income (r :: w')).
    change (map (fun r0 => Num (fee_income r0)) (r :: w'))
      with (num_column fee_income (r :: w')).
    rewrite !series_sum_num_column. cbn [bind ret]. fold total_income.
    destruct (Qeq_bool total_income 0); cbn [try_except returns]; reflexivity.
Qed.
End ReadableStatements.

(** ** Results that are rounded *)

Lemma bind_rounded {A} (c : result A) (k : A -> result float) :
  (forall a, rounded_or_raise (k a)) -> rounded_or_raise (bind c k).
Proof. intros H. destruct c; cbn; [apply H | exact I]. Qed.

Lemma bind_both_rounded {A} (c : result A) (k : A -> result (float * float)) :
  (forall a, both_rounded_or_raise (k a)) -> both_rounded_or_raise (bind c k).
Proof. intros H. destruct c; cbn; [apply H | exact I]. Qed.

Lemma try_except_rounded (body : result float) :
  rounded_or_raise body ->
  returns (try_except body (fun _ => ret 0)) two_decimals.
Proof. destruct body; cbn; [easy | intros _; apply two_decimals_0]. Qed.

Lemma try_except_both_rounded (body : result (float * float)) :
  both_rounded_or_raise body ->
  returns (try_except body (fun _ => ret (0, 0)))
          (fun p => two_decimals (fst p) /\ two_decimals (snd p)).
Proof.
  destruct body as [[a b]|]; cbn; [easy | intros _; split; apply two_decimals_0].
Qed.

Ltac rounded_body :=
  repeat (apply bind_rounded; intros ?);
  repeat (apply bind_both_rounded; intros ?);
  cbv zeta;
  match goal with
  | |- context [if ?c then _ else _] => destruct c
  end;
  cbn; auto using two_decimals_0, py_round_two_decimals.

Lemma nim_rounded conn : returns (calculate_net_interest_margin conn) two_decimals.
Proof. apply try_except_rounded. rounded_body. Qed.

Lemma roa_rounded conn : returns (calculate_roa conn) two_decimals.
Proof. apply try_except_rounded. rounded_body. Qed.

Lemma roe_rounded conn : returns (calculate_roe conn) two_decimals.
Proof. apply try_except_rounded. rounded_body. Qed.

Lemma cir_rounded conn : returns (calculate_cost_to_income_ratio conn) two_decimals.
Proof. apply try_except_rounded. rounded_body. Qed.

Lemma ldr_rounded conn : returns (calculate_loan_to_deposit_ratio conn) two_decimals.
Proof. apply try_except_rounded. rounded_body. Qed.

Lemma npl_rounded conn : returns (calculate_npl_ratio conn) two_decimals.
Proof. apply try_except_rounded. rounded_body. Qed.

Lemma default_rate_rounded conn :
  returns (calculate_default_rate conn)
          (fun p => two_decimals (fst p) /\ two_decimals (snd p)).
Proof. apply try_except_both_rounded. rounded_body. Qed.

(** ** Zero denominators *)

Lemma nim_zero_assets conn acs ls :
  accounts conn = Some acs -> loans conn = Some ls ->
  total_deposits_of acs + total_loans_of ls == 0 ->
  calculate_net_interest_margin conn = Ok 0.
Proof.
  intros Ha Hl Hz. destruct (financial_statements conn) as [fs|] eqn:Hf.
  - rewrite (nim_readable conn fs acs ls Hf Ha Hl).
    apply Qeq_bool_iff in Hz. now rewrite Hz.
  - unfold calculate_net_interest_margin. now start_calculator.
Qed.

Lemma roa_zero_assets conn acs ls :
  accounts conn = Some acs -> loans conn = Some ls ->
  total_deposits_of acs + total_loans_of ls == 0 ->
  calculate_roa conn = Ok 0.
Proof.
  intros Ha Hl Hz. destruct (financial_statements conn) as [fs|] eqn:Hf.
  - rewrite (roa_readable conn fs acs ls Hf Ha Hl).
    apply Qeq_bool_iff in Hz. now rewrite Hz.
  - unfold calculate_roa. now start_calculator.
Qed.

Lemma roe_zero_equity conn acs ls :
  accounts conn = Some acs -> loans conn = Some ls ->
  (total_deposits_of acs + total_loans_of ls) * EQUITY_PERCENTAGE == 0 ->
  calculate_roe conn = Ok 0.
Proof.
  intros Ha Hl Hz. destruct (financial_statements conn) as [fs|] eqn:Hf.
  - rewrite (roe_readable conn fs acs ls Hf Ha Hl).
    apply Qeq_bool_iff in Hz. now rewrite Hz.
  - unfold calculate_roe. now start_calculator.
Qed.

Lemma cir_zero_income conn fs :
  financial_statements conn = Some fs ->
  Qsum (map interest_income (recent_periods MONTHS_FOR_ANALYSIS fs))
  + Qsum (map fee_income (recent_periods MONTHS_FOR_ANALYSIS fs)) == 0 ->
  calculate_cost_to_income_ratio conn = Ok 0.
Proof.
  intros Hf Hz. unfold calculate_cost_to_income_ratio. start_calculator.
  cbn -[Qsum Qeq_bool py_round Qdiv Qmult Qplus recent_periods].
  unfold num_column. rewrite !length_map.
  destruct (recent_periods MONTHS_FOR_ANALYSIS fs) as [|r w'] eqn:E; [reflexivity|].
  cbn [List.length Nat.ltb Nat.leb].
  change (map (fun r0 => Num (interest_income r0)) (r :: w'))
    with (num_column interest_income (r :: w')).
  change (map (fun r0 => Num (fee_income r0)) (r :: w'))
    with (num_column fee_income (r :: w')).
  rewrite !series_sum_num_column. cbn [bind ret].
  apply Qeq_bool_iff in Hz. now rewrite Hz.
Qed.

Lemma ldr_zero_deposits conn acs :
  accounts conn = Some acs -> total_deposits_of acs == 0 ->
  calculate_loan_to_deposit_ratio conn = Ok 0.
Proof.
  intros Ha Hz. destruct (loans conn) as [ls|] eqn:Hl.
  - rewrite (ldr_readable conn acs ls Ha Hl).
    apply Qeq_bool_iff in Hz. now rewrite Hz.
  - unfold calculate_loan_to_deposit_ratio. now start_calculator.
Qed.

Lemma default_rate_no_loans conn :
  loans conn = Some [] -> calculate_default_rate conn = Ok (0, 0).
Proof. intros H. now rewrite (default_rate_readable conn [] H). Qed.

Lemma npl_zero_total conn ls :
  loans conn = Some ls -> total_loans_of ls == 0 ->
  calculate_npl_ratio conn = Ok 0.
Proof.
  intros Hl Hz. rewrite (npl_ratio_readable conn ls Hl).
  apply Qeq_bool_iff in Hz. now rewrite Hz.
Qed.

Lemma default_rate_zero_total conn ls :
  loans conn = Some ls -> total_loans_of ls == 0 ->
  returns (calculate_default_rate conn) (fun p => snd p == 0).
Proof.
  intros Hl Hz. rewrite (default_rate_readable conn ls Hl).
  assert (Qltb 0 (total_loans_of ls) = false) as -> by (apply Qltb_false; lra).
  destruct (Qeq_bool (count_of ls) 0); cbn [returns snd]; reflexivity.
Qed.

(** C3. A zero denominator gives 0.0 and no exception: total assets for NIM
    and ROA, equity for ROE, total income over the window for CIR, total
    deposits for LDR, the number of loans for the default rate, which is then
    the pair (0.0, 0.0), and the total amount of the loans for the NPL ratio
    and the default rate by value.  Every value a metric calculator returns
    has at most two decimal places. *)
Theorem zero_denominator_policy :
  (forall conn acs ls,
      accounts conn = Some acs -> loans conn = Some ls ->
      total_deposits_of acs + total_loans_of ls == 0 ->
      calculate_net_interest_margin conn = Ok 0 /\ calculate_roa conn = Ok 0) /\
  (forall conn acs ls,
      accounts conn = Some acs -> loans conn = Some ls ->
      (total_deposits_of acs + total_loans_of ls) * EQUITY_PERCENTAGE == 0 ->
      calculate_roe conn = Ok 0) /\
  (forall conn fs,
      financial_statements conn = Some fs ->
      Qsum (map interest_income (recent_periods MONTHS_FOR_ANALYSIS fs))
      + Qsum (map fee_income (recent_periods MONTHS_FOR_ANALYSIS fs)) == 0 ->
      calculate_cost_to_income_ratio conn = Ok 0) /\
  (forall conn acs,
      accounts conn = Some acs -> total_deposits_of acs == 0 ->
      calculate_loan_to_deposit_ratio conn = Ok 0) /\
  (forall conn ls,
      loans conn = Some ls -> List.length ls = 0%nat ->
      calculate_default_rate conn = Ok (0, 0)) /\
  (forall conn ls,
      loans conn = Some ls -> total_loans_of ls == 0 ->
      calculate_npl_ratio conn = Ok 0 /\
      returns (calculate_default_rate conn) (fun p => snd p == 0)) /\
  (forall conn,
      returns (calculate_net_interest_margin conn) two_decimals /\
      returns (calculate_roa conn) two_decimals /\
      returns (calculate_roe conn) two_decimals /\
      returns (calculate_cost_to_income_ratio conn) two_decimals /\
      returns (calculate_loan_to_deposit_ratio conn) two_decimals /\
      returns (calculate_default_rate conn)
              (fun p => two_decimals (fst p) /\ two_decimals (snd p)) /\
      returns (calculate_npl_ratio conn) two_decimals).
Proof.
  split; [|split; [|split; [|split; [|split; [|split; [|]]]]]].
  - intros conn acs ls Ha Hl Hz.
    split; [eapply nim_zero_assets | eapply roa_zero_assets]; eauto.
  - intros; eapply roe_zero_equity; eauto.
  - intros; eapply cir_zero_income; eauto.
  - intros; eapply ldr_zero_deposits; eauto.
  - intros conn ls H Hn. apply length_zero_iff_nil in Hn. subst ls.
    now apply default_rate_no_loans.
  - intros conn ls Hl Hz.
    split; [eapply npl_zero_total | eapply default_rate_zero_total]; eauto.
  - intros conn.
    pose proof (nim_rounded conn). pose proof (roa_rounded conn).
    pose proof (roe_rounded conn). pose proof (cir_rounded conn).
    pose proof (ldr_rounded conn). pose proof (default_rate_rounded conn).
    pose proof (npl_rounded conn). tauto.
Qed.

Lemma zero_denominator_policy_witness :
  calculate_net_interest_margin empty_db = Ok 0 /\
  calculate_roa empty_db = Ok 0 /\
  calculate_roe empty_db = Ok 0 /\
  calculate_cost_to_income_ratio empty_db = Ok 0 /\
  calculate_loan_to_deposit_ratio empty_db = Ok 0 /\
  calculate_default_rate empty_db = Ok (0, 0).
Proof.
  destruct zero_denominator_policy as (Hassets & Hroe & Hcir & Hldr & Hdr & _ & _).
  destruct (Hassets empty_db [] [] eq_refl eq_refl) as [Hnim Hroa]; [reflexivity|].
  refine (conj Hnim (conj Hroa (conj _ (conj _ (conj _ _))))).
  - apply (Hroe empty_db [] [] eq_refl eq_refl). reflexivity.
  - apply (Hcir empty_db [] eq_refl). reflexivity.
  - apply (Hldr empty_db [] eq_refl). reflexivity.
  - apply (Hdr empty_db [] eq_refl). reflexivity.
Defined.

(** ** Tables that cannot be read *)

Lemma safe_query_execution_reraises (conn : Connection) (q : query) (e : exn) :
  read_sql_query q conn = Raise e -> _safe_query_execution conn q = Raise e.
Proof. intros H. unfold _safe_query_execution. now rewrite H. Qed.

Lemma try_except_returns {A} (body : result A) (default : A) :
  exists v, try_except body (fun _ => ret default) = Ok v.
Proof. destruct body as [v|e]; [exists v | exists default]; reflexivity. Qed.

Ltac absorbed :=
  match goal with
  | |- ?f ?conn = _ =>
      unfold f;
      destruct (financial_statements conn) eqn:?; try discriminate;
      destruct (accounts conn) eqn:?; try discriminate;
      destruct (loans conn) eqn:?; try discriminate;
      now start_calculator
  end.

Lemma statements_unreadable conn :
  financial_statements conn = None ->
  calculate_net_interest_margin conn = Ok 0 /\
  calculate_roa conn = Ok 0 /\
  calculate_roe conn = Ok 0 /\
  calculate_cost_to_income_ratio conn = Ok 0 /\
  get_financial_summary conn = Ok zero_summary.
Proof. intros H. repeat split; absorbed. Qed.

Lemma accounts_unreadable conn :
  accounts conn = None ->
  calculate_net_interest_margin conn = Ok 0 /\
  calculate_roa conn = Ok 0 /\
  calculate_roe conn = Ok 0 /\
  calculate_loan_to_deposit_ratio conn = Ok 0 /\
  get_financial_summary conn = Ok zero_summary.
Proof. intros H. repeat split; absorbed. Qed.

Lemma loans_unreadable conn :
  loans conn = None ->
  calculate_net_interest_margin conn = Ok 0 /\
  calculate_roa conn = Ok 0 /\
  calculate_roe conn = Ok 0 /\
  calculate_loan_to_deposit_ratio conn = Ok 0 /\
  calculate_default_rate conn = Ok (0, 0) /\
  calculate_npl_ratio conn = Ok 0 /\
  calculate_credit_exposure_by_sector conn = Ok empty_frame /\
  get_financial_summary conn = Ok zero_summary.
Proof. intros H. repeat split; absorbed. Qed.

(** ** Series arithmetic on numeric columns *)

Lemma series_map_map {A} (f : cell -> result cell) (c g : A -> cell) (rows : list A) :
  (forall r, f (c r) = Ok (g r)) ->
  series_map f (map c rows) = Ok (map g rows).
Proof.
  intros H. induction rows as [|r rows IH]; [reflexivity|].
  cbn [map series_map]. now rewrite H, IH.
Qed.

Lemma series_div_map {A} (a b g : A -> cell) (rows : list A) :
  (forall r, cell_div (a r) (b r) = Ok (g r)) ->
  series_div (map a rows) (map b rows) = Ok (map g rows).
Proof.
  intros H. induction rows as [|r rows IH]; [reflexivity|].
  cbn [map series_div]. now rewrite H, IH.
Qed.

Lemma cell_div_num (x y : Q) : cell_div (Num x) (Num y) = Ok (ratio_cell x y).
Proof. unfold cell_div, ratio_cell. now destruct (Qeq_bool y 0). Qed.

Lemma cell_mul_ratio (x y k : Q) :
  cell_mul (ratio_cell x y) (Num k) = Ok (scale_cell k (ratio_cell x y)).
Proof. unfold ratio_cell. now destruct (Qeq_bool y 0). Qed.

Lemma cell_square_scaled (k : Q) (c : cell) :
  cell_mul (scale_cell k c) (scale_cell k c) = Ok (square_cell (scale_cell k c)).
Proof. now destruct c. Qed.

Lemma exposure_share_column {A} (df : DataFrame) (f : A -> Q) (rows : list A) :
  df.["total_exposure"] = Ok (num_column f rows) ->
  exposure_share df = Ok (map (fun r => pct_cell (Qsum (map f rows)) (f r)) rows).
Proof.
  intros H. unfold exposure_share. rewrite H. cbn [bind].
  rewrite series_sum_num_column. cbn [bind].
  unfold series_div_scalar, series_mul_scalar, num_column.
  rewrite (series_map_map _ _ (fun r => ratio_cell (f r) (Qsum (map f rows))))
    by (intros r; apply cell_div_num).
  cbn [bind].
  apply series_map_map. intros r. apply cell_mul_ratio.
Qed.

Lemma series_sum_squares (total : Q) (xs : list Q) :
  series_sum (map (fun x => square_cell (pct_cell total x)) xs) =
  Ok (if Qeq_bool total 0 then 0
      else Qsum (map (fun x => (x / total * 100) * (x / total * 100)) xs)).
Proof.
  unfold pct_cell, ratio_cell.
  destruct (Qeq_bool total 0); induction xs as [|x xs IH]; try reflexivity.
  - cbn [map scale_cell square_cell series_sum]. exact IH.
  - cbn [map scale_cell square_cell series_sum Qsum] in *. now rewrite IH.
Qed.

Lemma concentration_score_column {A} (df : DataFrame) (f : A -> Q) (rows : list A) :
  (0 < len df)%nat ->
  df.["total_exposure"] = Ok (num_column f rows) ->
  (forall s, (setitem df "exposure_pct" s).["exposure_pct"] = Ok s) ->
  concentration_score df = Ok (hhi_of (map f rows) / 10000 * 10).
Proof.
  intros Hlen Hcol Hset. unfold concentration_score.
  apply Nat.ltb_lt in Hlen. rewrite Hlen.
  rewrite (exposure_share_column df f rows Hcol). cbn [bind].
  rewrite Hset. cbn [bind]. unfold series_square.
  rewrite (series_map_map _ _
             (fun r => square_cell (pct_cell (Qsum (map f rows)) (f r))))
    by (intros r; apply cell_square_scaled).
  cbn [bind].
  rewrite <- (map_map f (fun x => square_cell (pct_cell (Qsum (map f rows)) x))).
  rewrite series_sum_squares. reflexivity.
Qed.

Lemma getitem_setitem (df : DataFrame) (c : string) (s : Series) :
  (setitem df c s).[c] = Ok s.
Proof.
  induction df as [|[n s0] df IH]; cbn [setitem getitem].
  - now rewrite String.eqb_refl.
  - destruct (n =? c)%string eqn:E; cbn [getitem]; rewrite E; [reflexivity | exact IH].
Qed.

(** ** The exposure frame and the four contributions *)

Lemma exposure_readable (conn : Connection) (ls : list Loan) :
  loans conn = Some ls ->
  calculate_credit_exposure_by_sector conn = Ok (exposure_frame ls).
Proof.
  intros H. unfold calculate_credit_exposure_by_sector, exposure_frame.
  start_calculator. cbn [len]. rewrite length_map.
  destruct (List.length (sector_rows ls) =? 0)%nat; [reflexivity|].
  cbn [getitem String.eqb Ascii.eqb Bool.eqb bind].
  unfold num_column at 1 2.
  rewrite (series_div_map _ _
             (fun r => ratio_cell (row_defaulted_count r) (row_loan_count r)))
    by (intros r; apply cell_div_num).
  cbn [bind]. unfold series_mul_scalar.
  rewrite (series_map_map _ _
             (fun r => scale_cell 100
                         (ratio_cell (row_defaulted_count r) (row_loan_count r))))
    by (intros r; apply cell_mul_ratio).
  cbn [bind].
  erewrite exposure_share_column by reflexivity.
  reflexivity.
Qed.

Lemma concentration_score_exposure (conn : Connection) :
  exists df, calculate_credit_exposure_by_sector conn = Ok df /\
             concentration_score df = Ok (concentration_of conn).
Proof.
  unfold concentration_of. destruct (loans conn) as [ls|] eqn:H.
  - exists (exposure_frame ls). split; [now apply exposure_readable|].
    unfold exposure_frame.
    destruct (List.length (sector_rows ls) =? 0)%nat eqn:E.
    + unfold concentration_score. cbn [eval_loans len]. rewrite length_map.
      apply Nat.eqb_eq in E. now rewrite E.
    + apply Nat.eqb_neq in E.
      apply (concentration_score_column _ row_total_exposure (sector_rows ls)).
      * cbn [eval_loans setitem String.eqb Ascii.eqb Bool.eqb len].
        rewrite length_map. lia.
      * reflexivity.
      * intros s. apply getitem_setitem.
  - exists empty_frame. split; [|reflexivity].
    now apply loans_unreadable.
Qed.

(** The four contributions, in terms of what the calculators return. *)
Lemma risk_scores_eq (conn : Connection) :
  exists npl ldr rate_count rate_value,
    calculate_npl_ratio conn = Ok npl /\
    calculate_loan_to_deposit_ratio conn = Ok ldr /\
    calculate_default_rate conn = Ok (rate_count, rate_value) /\
    risk_scores conn =
    Ok (py_min (npl * 10) 40, liquidity_score ldr, py_min (rate_value * 3) 30,
        concentration_of conn).
Proof.
  destruct (calculate_npl_ratio conn) as [npl|e] eqn:Hnpl.
  2:{ pose proof (npl_rounded conn) as R. now rewrite Hnpl in R. }
  destruct (calculate_loan_to_deposit_ratio conn) as [ldr|e] eqn:Hldr.
  2:{ pose proof (ldr_rounded conn) as R. now rewrite Hldr in R. }
  destruct (calculate_default_rate conn) as [[rc rv]|e] eqn:Hdr.
  2:{ pose proof (default_rate_rounded conn) as R. now rewrite Hdr in R. }
  destruct (concentration_score_exposure conn) as (df & Hdf & Hconc).
  exists npl, ldr, rc, rv. split; [reflexivity|]. split; [reflexivity|].
  split; [reflexivity|].
  unfold risk_scores. rewrite Hnpl, Hldr, Hdr, Hdf. cbn [bind]. rewrite Hconc.
  reflexivity.
Qed.

(** ** The liquidity contribution *)

Lemma liquidity_score_zero (ldr : float) :
  liquidity_score ldr == 0 <-> 80 <= ldr <= 100.
Proof.
  unfold liquidity_score.
  destruct (Qltb ldr 80) eqn:E1; [apply Qltb_true in E1 | apply Qltb_false in E1].
  - destruct (py_min_cases ((80 - ldr) * (1 # 2)) 20) as [[H ->]|[H ->]];
      split; intros; lra.
  - destruct (Qltb 100 ldr) eqn:E2; [apply Qltb_true in E2 | apply Qltb_false in E2].
    + destruct (py_min_cases ((ldr - 100) * (1 # 2)) 20) as [[H ->]|[H ->]];
        split; intros; lra.
    + destruct (py_min_cases 0 20) as [[H ->]|[H ->]]; split; intros; lra.
Qed.

Lemma py_min_Qmin (a b : float) : py_min a b == Qmin a b.
Proof.
  destruct (py_min_cases a b) as [[H ->]|[H ->]].
  - symmetry. apply Q.min_r. lra.
  - symmetry. now apply Q.min_l.
Qed.

Lemma liquidity_score_low (ldr : float) :
  ldr < 80 -> liquidity_score ldr == Qmin ((80 - ldr) * (1 # 2)) 20.
Proof.
  intros H. unfold liquidity_score. apply Qltb_true in H. rewrite H.
  apply py_min_Qmin.
Qed.

Lemma liquidity_score_high (ldr : float) :
  100 < ldr -> liquidity_score ldr == Qmin ((ldr - 100) * (1 # 2)) 20.
Proof.
  intros H. unfold liquidity_score.
  assert (Qltb ldr 80 = false) as -> by (apply Qltb_false; lra).
  apply Qltb_true in H. rewrite H. apply py_min_Qmin.
Qed.

(** C6. The liquidity contribution of [calculate_bank_risk_index] is computed
    from the value LDR that [calculate_loan_to_deposit_ratio] returns; it is 0
    exactly when 80 <= LDR <= 100, it is (80 - LDR) * 0.5 capped at 20 below
    80 and (LDR - 100) * 0.5 capped at 20 above 100. *)
Theorem liquidity_contribution (conn : Connection) :
  exists ldr npl_score ldr_score default_score concentration,
    calculate_loan_to_deposit_ratio conn = Ok ldr /\
    risk_scores conn = Ok (npl_score, ldr_score, default_score, concentration) /\
    (ldr_score == 0 <-> 80 <= ldr <= 100) /\
    (ldr < 80 -> ldr_score == Qmin ((80 - ldr) * (1 # 2)) 20) /\
    (100 < ldr -> ldr_score == Qmin ((ldr - 100) * (1 # 2)) 20).
Proof.
  destruct (risk_scores_eq conn) as (npl & ldr & rc & rv & _ & Hldr & _ & Hs).
  exists ldr, (py_min (npl * 10) 40), (liquidity_score ldr),
    (py_min (rv * 3) 30), (concentration_of conn).
  split; [exact Hldr|]. split; [exact Hs|].
  split; [apply liquidity_score_zero|].
  split; [apply liquidity_score_low | apply liquidity_score_high].
Qed.

(** ** The empty source *)

(** C10. On a source whose three tables are empty the NPL ratio, the LDR and
    the default rate are 0, the contributions are 0, 20, 0 and 10, and the
    risk index is 30. *)
Theorem risk_index_of_empty_source :
  calculate_npl_ratio empty_db = Ok 0 /\
  calculate_loan_to_deposit_ratio empty_db = Ok 0 /\
  calculate_default_rate empty_db = Ok (0, 0) /\
  risk_scores empty_db = Ok (0, 20, 0, 10) /\
  returns (calculate_bank_risk_index empty_db) (fun v => v == 30).
Proof. repeat split; vm_compute; reflexivity. Qed.

(** ** Infrastructure failures *)

(** C2, as the claim states it, fails: on a source whose loans table cannot be
    read the query of [calculate_npl_ratio] fails with [sqlite3.Error], and
    the calculator returns 0.0 instead of raising. *)
Lemma npl_ratio_swallows_query_error :
  _safe_query_execution broken_db npl_query = Raise Sqlite3Error /\
  calculate_npl_ratio broken_db = Ok 0.
Proof. split; reflexivity. Qed.

(** C2, amended.  [_safe_query_execution] raises the error of a failed query
    again, and the calculator that ran the query catches it, as it catches
    every exception, and returns its default: 0.0, the pair (0.0, 0.0), an
    empty frame, the all-zero summary.  No calculator raises. *)
Theorem query_errors_become_defaults (conn : Connection) :
  (forall q e, read_sql_query q conn = Raise e ->
               _safe_query_execution conn q = Raise e) /\
  (financial_statements conn = None ->
     calculate_net_interest_margin conn = Ok 0 /\
     calculate_roa conn = Ok 0 /\
     calculate_roe conn = Ok 0 /\
     calculate_cost_to_income_ratio conn = Ok 0 /\
     get_financial_summary conn = Ok zero_summary) /\
  (accounts conn = None ->
     calculate_net_interest_margin conn = Ok 0 /\
     calculate_roa conn = Ok 0 /\
     calculate_roe conn = Ok 0 /\
     calculate_loan_to_deposit_ratio conn = Ok 0 /\
     get_financial_summary conn = Ok zero_summary) /\
  (loans conn = None ->
     calculate_net_interest_margin conn = Ok 0 /\
     calculate_roa conn = Ok 0 /\
     calculate_roe conn = Ok 0 /\
     calculate_loan_to_deposit_ratio conn = Ok 0 /\
     calculate_default_rate conn = Ok (0, 0) /\
     calculate_npl_ratio conn = Ok 0 /\
     calculate_credit_exposure_by_sector conn = Ok empty_frame /\
     get_financial_summary conn = Ok zero_summary) /\
  (exists v, calculate_net_interest_margin conn = Ok v) /\
  (exists v, calculate_roa conn = Ok v) /\
  (exists v, calculate_roe conn = Ok v) /\
  (exists v, calculate_cost_to_income_ratio conn = Ok v) /\
  (exists v, calculate_loan_to_deposit_ratio conn = Ok v) /\
  (exists v, calculate_default_rate conn = Ok v) /\
  (exists v, calculate_npl_ratio conn = Ok v) /\
  (exists v, calculate_credit_exposure_by_sector conn = Ok v) /\
  (exists v, calculate_bank_risk_index conn = Ok v) /\
  (exists v, get_financial_summary conn = Ok v).
Proof.
  split; [apply safe_query_execution_reraises|].
  split; [apply statements_unreadable|].
  split; [apply accounts_unreadable|].
  split; [apply loans_unreadable|].
  repeat split; apply try_except_returns.
Qed.

Lemma query_errors_become_defaults_witness :
  calculate_net_interest_margin broken_db = Ok 0 /\
  calculate_default_rate broken_db = Ok (0, 0) /\
  calculate_npl_ratio broken_db = Ok 0 /\
  calculate_credit_exposure_by_sector broken_db = Ok empty_frame.
Proof.
  destruct (query_errors_become_defaults broken_db) as (_ & _ & _ & H & _).
  destruct (H eq_refl) as (Hnim & _ & _ & _ & Hdr & Hnpl & Hexp & _).
  exact (conj Hnim (conj Hdr (conj Hnpl Hexp))).
Defined.

(** ** ORDER BY ... DESC *)

Section OrderByFacts.
Context {A : Type} (geb : A -> A -> bool).
Hypothesis geb_total : forall a b, geb a b = true \/ geb b a = true.
Hypothesis geb_trans : forall a b c, geb a b = true -> geb b c = true -> geb a c = true.

Let ge (a b : A) : Prop := geb a b = true.

Lemma insert_desc_perm (x : A) (l : list A) :
  Permutation (x :: l) (insert_desc geb x l).
Proof.
  induction l as [|y l IH]; cbn [insert_desc]; [reflexivity|].
  destruct (geb x y); [reflexivity|].
  rewrite perm_swap. now apply perm_skip.
Qed.

Lemma order_by_desc_perm (l : list A) : Permutation l (order_by_desc geb l).
Proof.
  induction l as [|x l IH]; cbn [order_by_desc]; [reflexivity|].
  rewrite <- insert_desc_perm. now apply perm_skip.
Qed.

Lemma insert_desc_sorted (x : A) (l : list A) :
  Sorted ge l -> Sorted ge (insert_desc geb x l).
Proof.
  induction 1 as [|y l Hs IH Hhd]; cbn [insert_desc].
  - repeat constructor.
  - destruct (geb x y) eqn:E.
    + constructor; [now constructor | now constructor].
    + constructor; [exact IH|].
      assert (ge y x) as Hyx by (destruct (geb_total x y); [congruence | assumption]).
      destruct Hhd as [|z l Hyz]; cbn [insert_desc].
      * now constructor.
      * destruct (geb x z); now constructor.
Qed.

Lemma order_by_desc_sorted (l : list A) : Sorted ge (order_by_desc geb l).
Proof.
  induction l as [|x l IH]; cbn [order_by_desc]; [constructor|].
  now apply insert_desc_sorted.
Qed.

Lemma order_by_desc_strongly_sorted (l : list A) :
  StronglySorted ge (order_by_desc geb l).
Proof.
  apply Sorted_StronglySorted; [|apply order_by_desc_sorted].
  intros a b c. apply geb_trans.
Qed.

(** What comes first in a sorted list is not smaller than what follows. *)
Lemma strongly_sorted_split (n : nat) (l : list A) :
  StronglySorted ge l ->
  Forall (fun a => Forall (fun b => ge a b) (skipn n l)) (firstn n l).
Proof.
  intros H. revert n. induction H as [|x l Hs IH Hx]; intros n.
  - now rewrite firstn_nil.
  - destruct n as [|n]; cbn [firstn skipn]; [constructor|].
    constructor; [|apply IH].
    rewrite Forall_forall in *. intros b Hb. apply Hx.
    rewrite <- (firstn_skipn n l). apply in_or_app. now right.
Qed.
End OrderByFacts.

(** ** The order of months *)

Lemma ascii_compare_cases (x y z : Ascii.ascii) :
  match Ascii.compare x y, Ascii.compare y z with
  | Eq, c => Ascii.compare x z = c
  | c, Eq => Ascii.compare x z = c
  | Lt, Lt => Ascii.compare x z = Lt
  | Gt, Gt => Ascii.compare x z = Gt
  | _, _ => True
  end.
Proof.
  destruct (Ascii.compare x y) eqn:E1.
  - apply Ascii.compare_eq_iff in E1. now subst.
  - destruct (Ascii.compare y z) eqn:E2; [| |exact I].
    + apply Ascii.compare_eq_iff in E2. now subst.
    + unfold Ascii.compare in *. rewrite N.compare_lt_iff in *. lia.
  - destruct (Ascii.compare y z) eqn:E2; [|exact I|].
    + apply Ascii.compare_eq_iff in E2. now subst.
    + unfold Ascii.compare in *. rewrite N.compare_gt_iff in *. lia.
Qed.

Lemma string_leb_trans (a b c : string) :
  String.leb a b = true -> String.leb b c = true -> String.leb a c = true.
Proof.
  unfold String.leb. revert b c.
  induction a as [|x a IH]; intros [|y b] [|z c]; cbn [String.compare];
    try easy.
  pose proof (ascii_compare_cases x y z) as H.
  destruct (Ascii.compare x y), (Ascii.compare y z); try easy; rewrite H; try easy.
  apply IH.
Qed.

Lemma month_geb_total (a b : FinancialPeriod) :
  month_geb a b = true \/ month_geb b a = true.
Proof. unfold month_geb. destruct (String.leb_total (month a) (month b)); auto. Qed.

Lemma month_geb_trans (a b c : FinancialPeriod) :
  month_geb a b = true -> month_geb b c = true -> month_geb a c = true.
Proof. unfold month_geb. intros H1 H2. exact (string_leb_trans _ _ _ H2 H1). Qed.

(** ** The analysis window *)

Lemma recent_periods_most_recent (n : nat) (fs : list FinancialPeriod) :
  most_recent_periods n fs (recent_periods n fs).
Proof.
  unfold recent_periods. set (l := order_by_desc month_geb fs).
  assert (StronglySorted (fun a b => month_geb a b = true) l) as Hs
    by (apply order_by_desc_strongly_sorted;
        [apply month_geb_total | apply month_geb_trans]).
  exists (skipn n l). split; [|split; [|split]].
  - rewrite firstn_skipn. apply order_by_desc_perm.
  - rewrite length_firstn. f_equal. symmetry.
    apply Permutation_length, order_by_desc_perm.
  - clear -Hs. revert n. induction Hs as [|x l Hs IH Hx]; intros n.
    + rewrite firstn_nil. constructor.
    + destruct n; cbn [firstn]; constructor; [apply IH|].
      rewrite Forall_forall in *. intros b Hb. apply Hx.
      rewrite <- (firstn_skipn n l). apply in_or_app. now left.
  - apply (strongly_sorted_split month_geb n l Hs).
Qed.

Lemma recent_periods_all (n : nat) (fs : list FinancialPeriod) :
  (List.length fs <= n)%nat -> Permutation fs (recent_periods n fs).
Proof.
  intros H. unfold recent_periods. rewrite firstn_all2.
  - apply order_by_desc_perm.
  - now rewrite <- (Permutation_length (order_by_desc_perm month_geb fs)).
Qed.

Lemma summary_readable conn fs acs ls :
  financial_statements conn = Some fs ->
  accounts conn = Some acs ->
  loans conn = Some ls ->
  get_financial_summary conn =
  Ok (let w := recent_periods MONTHS_FOR_ANALYSIS fs in
      [("total_assets", total_deposits_of acs + total_loans_of ls);
       ("total_deposits", total_deposits_of acs);
       ("total_loans", total_loans_of ls);
       ("interest_income", Qsum (map interest_income w));
       ("interest_expense", Qsum (map interest_expense w));
       ("fee_income", Qsum (map fee_income w));
       ("operating_cost", Qsum (map operating_cost w));
       ("net_profit", Qsum (map net_profit w))]).
Proof.
  intros Hfs Hacs Hls. unfold get_financial_summary.
  start_calculator. run_calculator. reflexivity.
Qed.

(** C9. The window length is 12.  The periods a windowed calculator reads are
    the 12 most recent ones of [financial_statements], the most recent first,
    and all periods when there are at most 12; NIM, ROA, ROE, CIR and the
    financial summary are computed from sums over exactly these periods. *)
Theorem analysis_window :
  MONTHS_FOR_ANALYSIS = 12%nat /\
  forall conn fs,
    financial_statements conn = Some fs ->
    exists w,
      most_recent_periods MONTHS_FOR_ANALYSIS fs w /\
      ((List.length fs <= MONTHS_FOR_ANALYSIS)%nat -> Permutation fs w) /\
      returns (calculate_cost_to_income_ratio conn)
        (fun v =>
           let income := Qsum (map interest_income w) + Qsum (map fee_income w) in
           v == if Qeq_bool income 0 then 0
                else py_round (Qsum (map operating_cost w) / income * 100) 2) /\
      forall acs ls,
        accounts conn = Some acs -> loans conn = Some ls ->
        let assets := total_deposits_of acs + total_loans_of ls in
        calculate_net_interest_margin conn =
          Ok (if Qeq_bool assets 0 then 0
              else py_round
                     ((Qsum (map interest_income w) - Qsum (map interest_expense w))
                      / assets * 100) 2) /\
        calculate_roa conn =
          Ok (if Qeq_bool assets 0 then 0
              else py_round (Qsum (map net_profit w) / assets * 100) 2) /\
        calculate_roe conn =
          Ok (if Qeq_bool (assets * EQUITY_PERCENTAGE) 0 then 0
              else py_round
                     (Qsum (map net_profit w) / (assets * EQUITY_PERCENTAGE) * 100) 2) /\
        get_financial_summary conn =
          Ok [("total_assets", assets);
              ("total_deposits", total_deposits_of acs);
              ("total_loans", total_loans_of ls);
              ("interest_income", Qsum (map interest_income w));
              ("interest_expense", Qsum (map interest_expense w));
              ("fee_income", Qsum (map fee_income w));
              ("operating_cost", Qsum (map operating_cost w));
              ("net_profit", Qsum (map net_profit w))].
Proof.
  split; [reflexivity|]. intros conn fs Hfs.
  exists (recent_periods MONTHS_FOR_ANALYSIS fs).
  split; [apply recent_periods_most_recent|].
  split; [apply recent_periods_all|].
  split; [now apply cir_readable|].
  intros acs ls Hacs Hls assets.
  split; [now apply nim_readable|].
  split; [now apply roa_readable|].
  split; [now apply roe_readable|].
  now apply summary_readable.
Qed.

Lemma analysis_window_witness :
  exists fs w,
    financial_statements test_db = Some fs /\
    most_recent_periods MONTHS_FOR_ANALYSIS fs w /\
    Permutation fs w /\
    calculate_roa test_db =
      Ok (if Qeq_bool (300000 + 800000) 0 then 0
          else py_round (Qsum (map net_profit w) / (300000 + 800000) * 100) 2).
Proof.
  destruct analysis_window as [_ H].
  destruct (H test_db _ eq_refl) as (w & Hw & Hall & _ & Hcalc).
  destruct (Hcalc _ _ eq_refl eq_refl) as (_ & Hroa & _).
  eexists. exists w. split; [reflexivity|]. split; [exact Hw|].
  split; [apply Hall; vm_compute; lia|].
  exact Hroa.
Defined.

(** ** Loans of the data model *)

Lemma Qsum_nonneg (xs : list Q) : Forall (fun x => 0 <= x) xs -> 0 <= Qsum xs.
Proof. induction 1; cbn [Qsum]; lra. Qed.

Lemma Qsum_pos (xs : list Q) : Forall (fun x => 0 < x) xs -> xs <> [] -> 0 < Qsum xs.
Proof.
  intros H Hne. destruct H as [|x xs Hx Hxs]; [easy|].
  assert (0 <= Qsum xs) by (apply Qsum_nonneg; eapply Forall_impl; [|exact Hxs];
                            cbn; intros; lra).
  cbn [Qsum]. lra.
Qed.

Lemma total_loans_pos (ls : list Loan) :
  positive_amounts ls -> ls <> [] -> 0 < total_loans_of ls.
Proof.
  intros H Hne. apply Qsum_pos.
  - apply Forall_map. exact H.
  - destruct ls; [easy | discriminate].
Qed.

Lemma defaulted_amount_bounds (ls : list Loan) :
  positive_amounts ls -> 0 <= defaulted_amount_in ls <= total_loans_of ls.
Proof.
  unfold defaulted_amount_in, total_loans_of.
  induction 1 as [|l ls Hl Hls IH]; cbn [map Qsum]; [lra|].
  unfold defaulted_amount_of at 1 3. destruct (defaulted l); lra.
Qed.

Lemma count_of_cons_nonzero {A} (x : A) (xs : list A) :
  Qeq_bool (count_of (x :: xs)) 0 = false.
Proof.
  apply Qeq_bool_false. unfold count_of. intros H.
  assert (inject_Z 0 < inject_Z (Z.of_nat (List.length (x :: xs)))) as L
    by (rewrite <- Zlt_Qlt; cbn [List.length]; lia).
  change (inject_Z 0) with 0 in L. lra.
Qed.

(** The percentage of the defaulted amount, between 0 and 100. *)
Lemma defaulted_share_bounds (ls : list Loan) :
  positive_amounts ls -> ls <> [] ->
  0 <= defaulted_amount_in ls / total_loans_of ls * 100 <= 100.
Proof.
  intros H Hne. pose proof (total_loans_pos ls H Hne) as Ht.
  pose proof (defaulted_amount_bounds ls H) as [H0 H1].
  assert (0 <= defaulted_amount_in ls / total_loans_of ls) as L0
    by (apply Qle_shift_div_l; [exact Ht | lra]).
  assert (defaulted_amount_in ls / total_loans_of ls <= 1) as L1
    by (apply Qle_shift_div_r; [exact Ht | lra]).
  lra.
Qed.

(** ** NPL ratio and default rate by value *)

Lemma npl_ratio_valid (conn : Connection) (ls : list Loan) :
  loans conn = Some ls -> positive_amounts ls -> ls <> [] ->
  calculate_npl_ratio conn =
    Ok (py_round (defaulted_amount_in ls / total_loans_of ls * 100) 2) /\
  exists rate_count,
    calculate_default_rate conn =
    Ok (rate_count, py_round (defaulted_amount_in ls / total_loans_of ls * 100) 2).
Proof.
  intros Hls Hpos Hne. pose proof (total_loans_pos ls Hpos Hne) as Ht.
  rewrite (npl_ratio_readable conn ls Hls), (default_rate_readable conn ls Hls).
  assert (Qeq_bool (total_loans_of ls) 0 = false) as ->
    by (apply Qeq_bool_false; lra).
  assert (Qltb 0 (total_loans_of ls) = true) as -> by now apply Qltb_true.
  destruct ls as [|l ls']; [easy|]. rewrite count_of_cons_nonzero.
  split; [reflexivity | eexists; reflexivity].
Qed.

(** C4, as amended.  On every source whose loan amounts do not sum to a
    negative total, the loans table empty, unreadable or not,
    [calculate_npl_ratio] returns the second component of
    [calculate_default_rate]; when the total is positive both are the
    defaulted amount over the total amount, times 100, rounded to 2 decimal
    places, and when it is 0 both are 0.0. *)
Theorem npl_ratio_is_default_rate_by_value (conn : Connection) :
  nonnegative_total conn ->
  exists npl rate_count rate_value,
    calculate_npl_ratio conn = Ok npl /\
    calculate_default_rate conn = Ok (rate_count, rate_value) /\
    npl == rate_value /\
    (forall ls, loans conn = Some ls -> 0 < total_loans_of ls ->
       npl == py_round (defaulted_amount_in ls / total_loans_of ls * 100) 2) /\
    (forall ls, loans conn = Some ls -> total_loans_of ls == 0 -> npl == 0).
Proof.
  unfold nonnegative_total. intros Hv. destruct (loans conn) as [ls|] eqn:Hls.
  - rewrite (npl_ratio_readable conn ls Hls), (default_rate_readable conn ls Hls).
    destruct ls as [|l ls'].
    + exists 0, 0, 0. cbn.
      split; [reflexivity|]. split; [reflexivity|]. split; [reflexivity|].
      split; [|reflexivity].
      intros ls [= <-] H. cbn in H. lra.
    + rewrite count_of_cons_nonzero.
      destruct (Qeq_bool (total_loans_of (l :: ls')) 0) eqn:E.
      * apply Qeq_bool_iff in E.
        assert (Qltb 0 (total_loans_of (l :: ls')) = false) as ->
          by (apply Qltb_false; lra).
        do 3 eexists. split; [reflexivity|]. split; [reflexivity|].
        split; [vm_compute; reflexivity|].
        split; [|reflexivity].
        intros ls [= <-] H. lra.
      * apply Qeq_bool_false in E.
        assert (Qltb 0 (total_loans_of (l :: ls')) = true) as ->
          by (apply Qltb_true; lra).
        do 3 eexists. split; [reflexivity|]. split; [reflexivity|].
        split; [reflexivity|].
        split; [intros ls [= <-] _; reflexivity|].
        intros ls [= <-] H. contradiction.
  - exists 0, 0, 0.
    destruct (loans_unreadable conn Hls) as (_ & _ & _ & _ & Hd & Hn & _).
    rewrite Hn, Hd. split; [reflexivity|]. split; [reflexivity|].
    split; [reflexivity|]. split; intros ls [=].
Qed.

Lemma npl_ratio_is_default_rate_by_value_witness :
  exists npl rate_count rate_value,
    calculate_npl_ratio test_db = Ok npl /\
    calculate_default_rate test_db = Ok (rate_count, rate_value) /\
    npl == rate_value /\
    npl == 37.5.
Proof.
  destruct (npl_ratio_is_default_rate_by_value test_db)
    as (npl & rc & rv & Hn & Hd & E & F & _).
  - vm_compute. discriminate.
  - exists npl, rc, rv. split; [exact Hn|]. split; [exact Hd|]. split; [exact E|].
    rewrite (F _ eq_refl); [vm_compute; reflexivity | reflexivity].
Defined.

(** C4, as stated, fails on a source the schema admits: with one defaulted
    loan of -100 the guard [total_loans == 0] of the NPL ratio lets the
    division through, which gives 100.0, while the guard [total_amount > 0]
    of the default rate by value gives 0.0. *)
Lemma negative_total_npl_and_default_rate :
  exists npl rate_count rate_value,
    calculate_npl_ratio negative_loan_db = Ok npl /\
    calculate_default_rate negative_loan_db = Ok (rate_count, rate_value) /\
    npl == 100 /\ rate_value == 0 /\ ~ npl == rate_value.
Proof.
  do 3 eexists. split; [reflexivity|]. split; [reflexivity|].
  split; [vm_compute; reflexivity|]. split; [vm_compute; reflexivity|].
  vm_compute. discriminate.
Qed.

(** ** Shares and their squares *)

Lemma sum_squares_le (xs : list Q) :
  Forall (fun x => 0 <= x) xs ->
  0 <= Qsum (map Qsquare xs) <= Qsum xs * Qsum xs.
Proof.
  induction 1 as [|x xs Hx Hxs IH]; cbn [map Qsum]; [lra|].
  pose proof (Qsum_nonneg xs Hxs) as Hs. unfold Qsquare at 1 3.
  assert (0 <= x * x) by now apply Qmult_le_0_compat.
  assert (0 <= x * Qsum xs) by now apply Qmult_le_0_compat.
  split; [lra|].
  setoid_replace ((x + Qsum xs) * (x + Qsum xs))
    with (x * x + 2 * (x * Qsum xs) + Qsum xs * Qsum xs) by ring.
  lra.
Qed.

Lemma sum_squares_lt (x y : Q) (xs : list Q) :
  Forall (fun x => 0 < x) (x :: y :: xs) ->
  Qsum (map Qsquare (x :: y :: xs)) < Qsum (x :: y :: xs) * Qsum (x :: y :: xs).
Proof.
  intros H. inversion_clear H as [|? ? Hx Hrest].
  assert (Forall (fun x => 0 <= x) (y :: xs)) as Hnn
    by (eapply Forall_impl; [|exact Hrest]; cbn; intros; lra).
  pose proof (sum_squares_le (y :: xs) Hnn) as [_ Hle].
  assert (0 < Qsum (y :: xs)) as Hs by (apply Qsum_pos; [exact Hrest | easy]).
  assert (0 < x * Qsum (y :: xs)) by now apply Qmult_lt_0_compat.
  change (Qsum (x :: y :: xs)) with (x + Qsum (y :: xs)).
  change (Qsum (map Qsquare (x :: y :: xs)))
    with (x * x + Qsum (map Qsquare (y :: xs))).
  setoid_replace ((x + Qsum (y :: xs)) * (x + Qsum (y :: xs)))
    with (x * x + 2 * (x * Qsum (y :: xs)) + Qsum (y :: xs) * Qsum (y :: xs)) by ring.
  lra.
Qed.

(** The shares of a nonzero total sum to 100. *)
Lemma Qsum_shares (total : Q) (xs : list Q) :
  Qsum (map (fun x => x / total * 100) xs) == Qsum xs / total * 100.
Proof.
  induction xs as [|x xs IH]; cbn [map Qsum].
  - unfold Qdiv. ring.
  - rewrite IH. unfold Qdiv. ring.
Qed.

Lemma shares_sum_to_100 (xs : list Q) :
  ~ Qsum xs == 0 -> Qsum (map (fun x => x / Qsum xs * 100) xs) == 100.
Proof. intros H. rewrite Qsum_shares. field. exact H. Qed.

Lemma hhi_of_shares (xs : list Q) :
  ~ Qsum xs == 0 ->
  hhi_of xs = Qsum (map Qsquare (map (fun x => x / Qsum xs * 100) xs)).
Proof.
  intros H. unfold hhi_of. apply Qeq_bool_false in H. rewrite H.
  now rewrite map_map.
Qed.

Lemma shares_positive (xs : list Q) :
  Forall (fun x => 0 < x) xs -> xs <> [] ->
  Forall (fun x => 0 < x) (map (fun x => x / Qsum xs * 100) xs).
Proof.
  intros H Hne. pose proof (Qsum_pos xs H Hne) as Ht.
  apply Forall_map. eapply Forall_impl; [|exact H]. cbn. intros x Hx.
  assert (0 < x / Qsum xs) by (apply Qlt_shift_div_l; [exact Ht | lra]).
  lra.
Qed.

(** The index of concentration is at most 10000; it is 10000 exactly for a
    single share. *)
Lemma hhi_bounds (xs : list Q) :
  Forall (fun x => 0 < x) xs -> xs <> [] ->
  0 <= hhi_of xs <= 10000 /\ (hhi_of xs == 10000 <-> List.length xs = 1%nat).
Proof.
  intros H Hne. pose proof (Qsum_pos xs H Hne) as Ht.
  assert (~ Qsum xs == 0) as Hnz by lra.
  rewrite (hhi_of_shares xs Hnz).
  pose proof (shares_sum_to_100 xs Hnz) as H100.
  pose proof (shares_positive xs H Hne) as Hpos.
  set (ps := map (fun x => x / Qsum xs * 100) xs) in *.
  assert (Forall (fun x => 0 <= x) ps) as Hnn
    by (eapply Forall_impl; [|exact Hpos]; cbn; intros; lra).
  pose proof (sum_squares_le ps Hnn) as [L0 L1].
  rewrite H100 in L1.
  split; [lra|].
  assert (List.length xs = List.length ps) as -> by (unfold ps; now rewrite length_map).
  destruct ps as [|p [|q ps']].
  - cbn in H100. lra.
  - cbn [map Qsum Qsquare List.length] in *. unfold Qsquare.
    split; [reflexivity|]. intros _.
    assert (p == 100) as -> by lra. reflexivity.
  - pose proof (sum_squares_lt p q ps' Hpos) as Hlt. rewrite H100 in Hlt.
    cbn [List.length]. split; [lra | discriminate].
Qed.

(** ** The rows of the sector query *)

Lemma exposure_geb_total (a b : SectorRow) :
  exposure_geb a b = true \/ exposure_geb b a = true.
Proof.
  unfold exposure_geb. rewrite !Qle_bool_iff.
  destruct (Qlt_le_dec (row_total_exposure a) (row_total_exposure b)); [right | left]; lra.
Qed.

Lemma exposure_geb_trans (a b c : SectorRow) :
  exposure_geb a b = true -> exposure_geb b c = true -> exposure_geb a c = true.
Proof. unfold exposure_geb. rewrite !Qle_bool_iff. lra. Qed.

Lemma sector_rows_perm (ls : list Loan) :
  Permutation (map (sector_row ls) (nodup string_dec (map sector ls))) (sector_rows ls).
Proof. apply order_by_desc_perm. Qed.

Lemma sector_rows_length (ls : list Loan) :
  List.length (sector_rows ls) = List.length (nodup string_dec (map sector ls)).
Proof.
  rewrite <- (Permutation_length (sector_rows_perm ls)). apply length_map.
Qed.

Lemma sector_rows_nil (ls : list Loan) : sector_rows ls = [] <-> ls = [].
Proof.
  rewrite <- !length_zero_iff_nil, sector_rows_length, !length_zero_iff_nil.
  split.
  - intros H. destruct ls as [|l ls]; [reflexivity|].
    assert (In (sector l) (nodup string_dec (map sector (l :: ls)))) as Hin
      by (apply nodup_In; now left).
    now rewrite H in Hin.
  - now intros ->.
Qed.

Lemma sector_totals_sorted (ls : list Loan) :
  StronglySorted (fun a b => b <= a) (sector_totals ls).
Proof.
  unfold sector_totals, sector_rows.
  pose proof (order_by_desc_strongly_sorted exposure_geb exposure_geb_total
                exposure_geb_trans
                (map (sector_row ls) (nodup string_dec (map sector ls)))) as H.
  induction H as [|r rows Hs IH Hr]; cbn [map]; constructor; [exact IH|].
  apply Forall_map. eapply Forall_impl; [|exact Hr].
  cbn. intros a Ha. now apply Qle_bool_iff.
Qed.

Lemma sector_totals_positive (ls : list Loan) :
  positive_amounts ls -> Forall (fun x => 0 < x) (sector_totals ls).
Proof.
  intros Hpos. unfold sector_totals. apply Forall_map.
  eapply Permutation_Forall; [apply sector_rows_perm|].
  apply Forall_map. apply Forall_forall. intros s Hs.
  apply nodup_In, in_map_iff in Hs. destruct Hs as (l & Hl & Hin).
  cbn [sector_row row_total_exposure]. apply Qsum_pos.
  - apply Forall_map, Forall_forall. intros l' Hl'.
    apply filter_In in Hl' as [Hl' _].
    unfold positive_amounts in Hpos. rewrite Forall_forall in Hpos. now apply Hpos.
  - assert (In l (filter (in_sector s) ls)) as Hf
      by (apply filter_In; split; [exact Hin | unfold in_sector; now apply String.eqb_eq]).
    destruct (filter (in_sector s) ls); [easy | discriminate].
Qed.

Lemma nodup_singleton (xs : list string) :
  xs <> [] ->
  List.length (nodup string_dec xs) = 1%nat <-> exists s, forall x, In x xs -> x = s.
Proof.
  intros Hne. split.
  - intros H. destruct (nodup string_dec xs) as [|s [|? ?]] eqn:E; try discriminate.
    exists s. intros x Hx. apply (nodup_In string_dec) in Hx. rewrite E in Hx.
    destruct Hx as [<-|[]]. reflexivity.
  - intros [s Hs].
    pose proof (NoDup_nodup string_dec xs) as Hnd.
    assert (forall x, In x (nodup string_dec xs) -> x = s) as Hall
      by (intros x Hx; apply Hs; now apply nodup_In in Hx).
    destruct (nodup string_dec xs) as [|a [|b l]] eqn:E.
    + destruct xs as [|x xs]; [easy|].
      assert (In x (nodup string_dec (x :: xs))) as Hin by (apply nodup_In; now left).
      now rewrite E in Hin.
    + reflexivity.
    + exfalso. inversion_clear Hnd as [|? ? Hnotin _]. apply Hnotin.
      rewrite (Hall a), (Hall b); [now left | right; now left | now left].
Qed.

Lemma one_sector_row (ls : list Loan) :
  ls <> [] ->
  List.length (sector_totals ls) = 1%nat <-> single_sector ls.
Proof.
  intros Hne. unfold sector_totals. rewrite length_map, sector_rows_length.
  rewrite nodup_singleton by (destruct ls; [easy | discriminate]).
  unfold single_sector. split; intros [s Hs]; exists s.
  - intros l Hl. apply Hs. now apply in_map.
  - intros x Hx. apply in_map_iff in Hx as (l & <- & Hl). now apply Hs.
Qed.

(** ** Bounds of the contributions *)

Lemma liquidity_score_bounds (ldr : float) : 0 <= liquidity_score ldr <= 20.
Proof.
  unfold liquidity_score. split; [|apply py_min_le_r].
  apply py_min_ge; [|lra].
  destruct (Qltb ldr 80) eqn:E1; [apply Qltb_true in E1; lra|].
  destruct (Qltb 100 ldr) eqn:E2; [apply Qltb_true in E2; lra | lra].
Qed.

Lemma npl_ratio_bounds (conn : Connection) :
  valid_loans conn ->
  returns (calculate_npl_ratio conn) (fun v => 0 <= v <= 100).
Proof.
  unfold valid_loans. intros Hv. destruct (loans conn) as [[|l ls]|] eqn:Hls.
  - rewrite (npl_ratio_readable conn [] Hls). cbn. lra.
  - destruct (npl_ratio_valid conn (l :: ls) Hls Hv) as [-> _]; [easy|].
    cbn [returns].
    pose proof (defaulted_share_bounds (l :: ls) Hv) as [H0 H1]; [easy|].
    split; [now apply py_round_nonneg | now apply py_round_le_100].
  - rewrite (npl_ratio_unreadable conn Hls). cbn. lra.
Qed.

Lemma default_rate_value_bounds (conn : Connection) :
  valid_loans conn ->
  returns (calculate_default_rate conn) (fun p => 0 <= snd p <= 100).
Proof.
  unfold valid_loans. intros Hv. destruct (loans conn) as [[|l ls]|] eqn:Hls.
  - rewrite (default_rate_readable conn [] Hls). cbn. lra.
  - destruct (npl_ratio_valid conn (l :: ls) Hls Hv) as (_ & rc & ->); [easy|].
    cbn [returns snd].
    pose proof (defaulted_share_bounds (l :: ls) Hv) as [H0 H1]; [easy|].
    split; [now apply py_round_nonneg | now apply py_round_le_100].
  - destruct (loans_unreadable conn Hls) as (_ & _ & _ & _ & -> & _). cbn. lra.
Qed.

Lemma Qdiv_10000_times_10 (x : Q) : x / 10000 * 10 == x * (1 # 1000).
Proof. unfold Qdiv. change (/ 10000) with (1 # 10000). ring. Qed.

Lemma concentration_of_readable (conn : Connection) (ls : list Loan) :
  loans conn = Some ls -> ls <> [] ->
  concentration_of conn = hhi_of (sector_totals ls) / 10000 * 10.
Proof.
  intros Hls Hne. unfold concentration_of. rewrite Hls.
  destruct (List.length (sector_rows ls) =? 0)%nat eqn:E; [|reflexivity].
  apply Nat.eqb_eq, length_zero_iff_nil, sector_rows_nil in E. contradiction.
Qed.

Lemma sector_totals_nonempty (ls : list Loan) : ls <> [] -> sector_totals ls <> [].
Proof.
  intros Hne H. apply Hne, sector_rows_nil. unfold sector_totals in H.
  now apply map_eq_nil in H.
Qed.

Lemma concentration_bounds (conn : Connection) :
  valid_loans conn -> 0 <= concentration_of conn <= 10.
Proof.
  unfold valid_loans. intros Hv. destruct (loans conn) as [[|l ls]|] eqn:Hls.
  - unfold concentration_of. rewrite Hls. cbn. lra.
  - rewrite (concentration_of_readable conn (l :: ls) Hls) by easy.
    destruct (hhi_bounds (sector_totals (l :: ls))) as [[H0 H1] _].
    + now apply sector_totals_positive.
    + now apply sector_totals_nonempty.
    + rewrite Qdiv_10000_times_10. lra.
  - unfold concentration_of. rewrite Hls. lra.
Qed.

(** The contributions on a source of the data model. *)
Lemma risk_scores_bounds (conn : Connection) :
  valid_loans conn ->
  exists npl ldr rate_count rate_value,
    calculate_npl_ratio conn = Ok npl /\
    calculate_loan_to_deposit_ratio conn = Ok ldr /\
    calculate_default_rate conn = Ok (rate_count, rate_value) /\
    risk_scores conn =
      Ok (py_min (npl * 10) 40, liquidity_score ldr, py_min (rate_value * 3) 30,
          concentration_of conn) /\
    0 <= py_min (npl * 10) 40 <= 40 /\
    0 <= liquidity_score ldr <= 20 /\
    0 <= py_min (rate_value * 3) 30 <= 30 /\
    0 <= concentration_of conn <= 10.
Proof.
  intros Hv.
  destruct (risk_scores_eq conn) as (npl & ldr & rc & rv & Hn & Hl & Hd & Hs).
  exists npl, ldr, rc, rv.
  pose proof (npl_ratio_bounds conn Hv) as Bn. rewrite Hn in Bn. cbn in Bn.
  pose proof (default_rate_value_bounds conn Hv) as Bd. rewrite Hd in Bd. cbn in Bd.
  repeat (split; [assumption|]).
  split; [split; [apply py_min_ge; lra | apply py_min_le_r]|].
  split; [apply liquidity_score_bounds|].
  split; [split; [apply py_min_ge; lra | apply py_min_le_r]|].
  now apply concentration_bounds.
Qed.

(** ** The sector exposure *)

Lemma series_sum_pct {A} (t : A -> Q) (total : Q) (rows : list A) :
  Qeq_bool total 0 = false ->
  series_sum (map (fun r => pct_cell total (t r)) rows) =
  Ok (Qsum (map (fun x => x / total * 100) (map t rows))).
Proof.
  intros H. unfold pct_cell, ratio_cell. rewrite H.
  induction rows as [|r rows IH]; [reflexivity|].
  cbn [map scale_cell series_sum Qsum] in *. now rewrite IH.
Qed.

(** C8, as amended.  On a source with at least one loan, all amounts
    positive as in the data model, [calculate_credit_exposure_by_sector]
    returns a frame with at least one row, whose [total_exposure] column is in
    descending order and whose [exposure_pct] column sums to 100 (so within
    1e-6 of it); on an empty loans table it returns a frame without rows, and
    does not raise. *)
Theorem sector_exposure_shares (conn : Connection) (ls : list Loan) :
  loans conn = Some ls ->
  positive_amounts ls ->
  (ls <> [] ->
   returns (calculate_credit_exposure_by_sector conn)
     (fun df =>
        (0 < len df)%nat /\
        exists totals pct total,
          df.["total_exposure"] = Ok (map Num totals) /\
          StronglySorted (fun a b => b <= a) totals /\
          df.["exposure_pct"] = Ok pct /\
          series_sum pct = Ok total /\
          Qabs (total - 100) <= 1 # 1000000)) /\
  (ls = [] ->
   returns (calculate_credit_exposure_by_sector conn) (fun df => len df = 0%nat)).
Proof.
  intros Hls Hpos. rewrite (exposure_readable conn ls Hls). cbn [returns]. split.
  - intros Hne. unfold exposure_frame.
    assert (sector_rows ls <> []) as Hrows by now rewrite sector_rows_nil.
    destruct (List.length (sector_rows ls) =? 0)%nat eqn:E.
    { apply Nat.eqb_eq, length_zero_iff_nil in E. contradiction. }
    apply Nat.eqb_neq in E.
    assert (0 < Qsum (sector_totals ls)) as Ht
      by (apply Qsum_pos; [now apply sector_totals_positive
                          | now apply sector_totals_nonempty]).
    assert (Qeq_bool (Qsum (sector_totals ls)) 0 = false) as Hnz
      by (apply Qeq_bool_false; lra).
    split.
    + cbn [eval_loans setitem String.eqb Ascii.eqb Bool.eqb len].
      rewrite length_map. lia.
    + exists (sector_totals ls). eexists. eexists.
      split; [|split; [apply sector_totals_sorted|split; [apply getitem_setitem|split]]].
      * cbn [eval_loans setitem getitem String.eqb Ascii.eqb Bool.eqb].
        unfold num_column, sector_totals. now rewrite map_map.
      * apply (series_sum_pct row_total_exposure _ _ Hnz).
      * fold (sector_totals ls).
        assert (Qsum (map (fun x => x / Qsum (sector_totals ls) * 100) (sector_totals ls))
                - 100 == 0) as ->
          by (rewrite shares_sum_to_100; [ring | lra]).
        easy.
  - intros ->. reflexivity.
Qed.

Lemma sector_exposure_shares_witness :
  returns (calculate_credit_exposure_by_sector test_db)
    (fun df =>
       (0 < len df)%nat /\
       exists totals pct total,
         df.["total_exposure"] = Ok (map Num totals) /\
         StronglySorted (fun a b => b <= a) totals /\
         df.["exposure_pct"] = Ok pct /\
         series_sum pct = Ok total /\
         Qabs (total - 100) <= 1 # 1000000).
Proof.
  refine (proj1 (sector_exposure_shares test_db _ eq_refl _) _).
  - repeat constructor.
  - discriminate.
Defined.

(** C8, as stated, fails on a source the schema admits: with one loan of
    amount 0 the frame has a row, the total exposure is 0, and the share
    0.0 / 0.0 is NaN, so that the [exposure_pct] column holds no number and
    its sum, which skips missing values, is 0 and not 100. *)
Lemma zero_total_exposure_shares :
  exists ls df pct total,
    loans zero_loan_db = Some ls /\ ls <> [] /\
    calculate_credit_exposure_by_sector zero_loan_db = Ok df /\
    (0 < len df)%nat /\
    df.["exposure_pct"] = Ok pct /\ pct = [NaN] /\
    series_sum pct = Ok total /\
    ~ Qabs (total - 100) <= 1 # 1000000.
Proof.
  do 4 eexists. split; [reflexivity|]. split; [discriminate|].
  split; [reflexivity|]. split; [cbn; lia|]. split; [reflexivity|].
  split; [reflexivity|]. split; [reflexivity|].
  vm_compute. intros H. apply H. reflexivity.
Qed.

(** ** The risk index *)

Lemma risk_index_of_scores (conn : Connection) (a b c d : float) :
  risk_scores conn = Ok (a, b, c, d) ->
  calculate_bank_risk_index conn = Ok (py_round (py_min (a + b + c + d) 100) 2).
Proof. intros H. unfold calculate_bank_risk_index. now rewrite H. Qed.





(** ** Outside the data model

    The hypothesis [valid_loans] of the theorems above is the data model's
    [loan_amount > 0].  The schema only asks for [REAL NOT NULL], and
    [metrics.py] checks no amount; with a negative amount the contributions
    leave their ranges, since the only bound the code applies to their sum is
    [min(..., 100)] and the concentration score has no bound of its own. *)



(** * Further properties of [metrics.py] *)

(** ** Rounding *)

Lemma round_half_even_monotone (x y : Q) :
  x <= y -> (round_half_even x <= round_half_even y)%Z.
Proof.
  intros H. pose proof (Qfloor_resp_le x y H) as Hf.
  destruct (Z.eq_dec (Qfloor x) (Qfloor y)) as [E|E].
  - unfold round_half_even. rewrite E.
    destruct (Qltb (x - inject_Z (Qfloor y)) (1 # 2)) eqn:X1;
      destruct (Qltb (y - inject_Z (Qfloor y)) (1 # 2)) eqn:Y1;
      destruct (Qltb (1 # 2) (x - inject_Z (Qfloor y))) eqn:X2;
      destruct (Qltb (1 # 2) (y - inject_Z (Qfloor y))) eqn:Y2;
      destruct (Z.even (Qfloor y));
      try lia;
      rewrite ?Qltb_true, ?Qltb_false in *; lra.
  - destruct (round_half_even_cases x) as [-> | [-> _]];
      destruct (round_half_even_cases y) as [-> | [-> _]]; lia.
Qed.

Lemma py_round_monotone (x y : float) : x <= y -> py_round x 2 <= py_round y 2.
Proof.
  intros H. rewrite !py_round_2.
  assert (x * 100 <= y * 100) as H' by lra.
  apply round_half_even_monotone in H'. rewrite Zle_Qle in H'. lra.
Qed.

(** ** The default rate by count *)

Lemma count_of_filter_le {A} (f : A -> bool) (xs : list A) :
  0 <= count_of (filter f xs) <= count_of xs.
Proof.
  unfold count_of. pose proof (filter_length_le f xs) as H.
  change 0 with (inject_Z 0). rewrite <- !Zle_Qle. lia.
Qed.

(** X1. The default rate by count is a percentage on every source: the
    first component of what [calculate_default_rate] returns lies between 0
    and 100. *)
Theorem default_rate_by_count_is_percentage (conn : Connection) :
  returns (calculate_default_rate conn) (fun p => 0 <= fst p <= 100).
Proof.
  destruct (loans conn) as [ls|] eqn:Hls.
  - rewrite (default_rate_readable conn ls Hls).
    destruct (Qeq_bool (count_of ls) 0) eqn:E; cbn [returns fst]; [lra|].
    apply Qeq_bool_false in E.
    pose proof (count_of_filter_le defaulted ls) as [H0 H1].
    assert (0 < count_of ls) as Hn by lra.
    assert (0 <= count_of (filter defaulted ls) / count_of ls) as L0
      by (apply Qle_shift_div_l; [exact Hn | lra]).
    assert (count_of (filter defaulted ls) / count_of ls <= 1) as L1
      by (apply Qle_shift_div_r; [exact Hn | lra]).
    split; [apply py_round_nonneg | apply py_round_le_100]; lra.
  - destruct (loans_unreadable conn Hls) as (_ & _ & _ & _ & -> & _).
    cbn. lra.
Qed.

(** X2. On a source of the data model the NPL ratio and the default rate by
    value are percentages: both lie between 0 and 100. *)
Theorem credit_quality_ratios_are_percentages (conn : Connection) :
  valid_loans conn ->
  returns (calculate_npl_ratio conn) (fun v => 0 <= v <= 100) /\
  returns (calculate_default_rate conn) (fun p => 0 <= snd p <= 100).
Proof.
  intros Hv. split; [now apply npl_ratio_bounds | now apply default_rate_value_bounds].
Qed.

Lemma credit_quality_ratios_are_percentages_witness :
  returns (calculate_npl_ratio test_db) (fun v => 0 <= v <= 100) /\
  returns (calculate_default_rate test_db) (fun p => 0 <= snd p <= 100).
Proof.
  apply (credit_quality_ratios_are_percentages test_db). repeat constructor.
Defined.

(** ** Sources without loans or without deposits *)

#[global] Instance liquidity_score_comp : Proper (Qeq ==> Qeq) liquidity_score.
Proof.
  intros x y H. unfold liquidity_score.
  rewrite (Qltb_comp _ _ H _ _ (Qeq_refl 80)), (Qltb_comp _ _ (Qeq_refl 100) _ _ H).
  apply py_min_comp; [|reflexivity].
  destruct (Qltb y 80); [now rewrite H|].
  destruct (Qltb 100 y); [now rewrite H | reflexivity].
Qed.

Lemma ldr_without_loans (conn : Connection) :
  loans conn = Some [] \/ loans conn = None ->
  returns (calculate_loan_to_deposit_ratio conn) (fun ldr => ldr == 0).
Proof.
  intros [Hls | Hls].
  - destruct (accounts conn) as [acs|] eqn:Hacs.
    + rewrite (ldr_readable conn acs [] Hacs Hls).
      destruct (Qeq_bool (total_deposits_of acs) 0); cbn [returns]; [reflexivity|].
      assert (total_loans_of [] / total_deposits_of acs * 100 == 0) as ->
        by (unfold total_loans_of, Qdiv; cbn [map Qsum]; ring).
      reflexivity.
    + destruct (accounts_unreadable conn Hacs) as (_ & _ & _ & -> & _). reflexivity.
  - destruct (loans_unreadable conn Hls) as (_ & _ & _ & -> & _). reflexivity.
Qed.

#[global] Instance risk_level_comp : Proper (Qeq ==> eq) risk_level.
Proof.
  intros x y H. unfold risk_level.
  now rewrite (Qltb_comp _ _ H _ _ (Qeq_refl 30)), (Qltb_comp _ _ H _ _ (Qeq_refl 60)).
Qed.

#[global] Instance health_status_comp : Proper (Qeq ==> eq) health_status.
Proof.
  intros x y H. unfold health_status.
  assert (forall k, Qle_bool k (100 - x) = Qle_bool k (100 - y)) as E
    by (intros k; apply eq_true_iff_eq; rewrite !Qle_bool_iff; now rewrite H).
  now rewrite !E.
Qed.

(** X3. A source without loans, the loans table empty or unreadable, has the
    risk index 30 whatever its accounts and financial statements are: the
    NPL and default contributions are 0, the LDR is 0, which costs the full 20
    liquidity points, and the concentration defaults to 10.  The overview
    page shows such a source with the risk level "Médio" and the health
    status "Excelente". *)
Theorem risk_index_without_loans (conn : Connection) :
  loans conn = Some [] \/ loans conn = None ->
  returns (risk_scores conn)
    (fun '(npl_score, ldr_score, default_score, concentration) =>
       npl_score == 0 /\ ldr_score == 20 /\ default_score == 0 /\ concentration == 10) /\
  returns (calculate_bank_risk_index conn)
    (fun v => v == 30 /\ risk_level v = "Médio" /\ health_status v = "Excelente").
Proof.
  intros Hno.
  destruct (risk_scores_eq conn) as (npl & ldr & rc & rv & Hn & Hl & Hd & Hs).
  pose proof (ldr_without_loans conn Hno) as Hldr. rewrite Hl in Hldr. cbn in Hldr.
  assert (npl = 0 /\ rv = 0 /\ concentration_of conn = 10) as (-> & -> & Hc).
  { unfold concentration_of. destruct Hno as [Hls | Hls].
    - rewrite (npl_ratio_readable conn [] Hls) in Hn.
      rewrite (default_rate_readable conn [] Hls) in Hd.
      rewrite Hls. cbn in Hn, Hd |- *. now injection Hn as <-; injection Hd as <- <-.
    - destruct (loans_unreadable conn Hls) as (_ & _ & _ & _ & Hd' & Hn' & _).
      rewrite Hn' in Hn. rewrite Hd' in Hd. rewrite Hls.
      now injection Hn as <-; injection Hd as <- <-. }
  rewrite Hc in Hs.
  assert (liquidity_score ldr == 20) as Hliq by (rewrite Hldr; reflexivity).
  rewrite (risk_index_of_scores conn _ _ _ _ Hs), Hs. cbn [returns].
  split.
  { cbv beta iota. split; [reflexivity|]. split; [exact Hliq|].
    split; reflexivity. }
  assert (py_min (0 * 10) 40 + liquidity_score ldr + py_min (0 * 3) 30 + 10 == 30) as E
    by (rewrite Hliq; reflexivity).
  assert (py_round (py_min (py_min (0 * 10) 40 + liquidity_score ldr
                            + py_min (0 * 3) 30 + 10) 100) 2 == 30) as E30
    by (rewrite E; reflexivity).
  split; [exact E30|]. now rewrite E30.
Qed.

Lemma risk_index_without_loans_witness :
  returns (calculate_bank_risk_index
             {| financial_statements := financial_statements test_db;
                accounts := accounts test_db;
                loans := None |})
          (fun v => v == 30 /\ risk_level v = "Médio" /\ health_status v = "Excelente").
Proof.
  refine (proj2 (risk_index_without_loans _ _)). right. reflexivity.
Defined.

(** X4. A source without deposits, the accounts table unreadable or the
    deposit balances summing to 0, gets the full 20 liquidity points: the
    LDR falls back to 0.0, which the risk index reads as far below 80.  On
    such a source of the data model the risk index is at least 20. *)
Theorem no_deposits_cost_full_liquidity_points (conn : Connection) :
  accounts conn = None \/
  (exists acs, accounts conn = Some acs /\ total_deposits_of acs == 0) ->
  calculate_loan_to_deposit_ratio conn = Ok 0 /\
  exists npl_score default_score concentration,
    risk_scores conn = Ok (npl_score, 20, default_score, concentration) /\
    (valid_loans conn ->
     returns (calculate_bank_risk_index conn) (fun v => 20 <= v)).
Proof.
  intros Hno.
  assert (calculate_loan_to_deposit_ratio conn = Ok 0) as Hldr.
  { destruct Hno as [Hacs | (acs & Hacs & Hz)].
    - now destruct (accounts_unreadable conn Hacs) as (_ & _ & _ & -> & _).
    - now apply (ldr_zero_deposits conn acs). }
  split; [exact Hldr|].
  destruct (risk_scores_eq conn) as (npl & ldr & rc & rv & Hn & Hl & Hd & Hs).
  rewrite Hldr in Hl. injection Hl as <-.
  change (liquidity_score 0) with 20 in Hs.
  do 3 eexists. split; [exact Hs|].
  intros Hv. rewrite (risk_index_of_scores conn _ _ _ _ Hs). cbn [returns].
  destruct (risk_scores_bounds conn Hv)
    as (npl' & ldr' & rc' & rv' & Hn' & _ & Hd' & _ & Ba & _ & Bc & Bd).
  rewrite Hn in Hn'. rewrite Hd in Hd'.
  injection Hn' as <-. injection Hd' as <- <-.
  set (capped := py_min (py_min (npl * 10) 40 + 20 + py_min (rv * 3) 30
                         + concentration_of conn) 100).
  assert (20 <= capped) as L by (apply py_min_ge; lra).
  pose proof (py_round_lower capped 2000) as R.
  change (inject_Z 2000) with 2000 in R. lra.
Qed.

Lemma no_deposits_cost_full_liquidity_points_witness :
  exists npl_score default_score concentration,
    risk_scores {| financial_statements := financial_statements test_db;
                   accounts := Some [];
                   loans := loans test_db |}
    = Ok (npl_score, 20, default_score, concentration).
Proof.
  destruct (no_deposits_cost_full_liquidity_points
              {| financial_statements := financial_statements test_db;
                 accounts := Some [];
                 loans := loans test_db |}) as (_ & a & c & d & Hs & _).
  - right. exists []. split; reflexivity.
  - exists a, c, d. exact Hs.
Defined.

(** ** The financial summary *)

(** X5. [get_financial_summary] always returns the same eight keys, with
    total_assets = total_deposits + total_loans.  It is all or nothing: as
    soon as one of the three tables cannot be read every entry is 0, also
    the entries that come from the tables that can be read. *)
Theorem financial_summary_shape (conn : Connection) :
  (exists assets deposits lent income expense fees cost profit,
      get_financial_summary conn =
        Ok [("total_assets", assets); ("total_deposits", deposits);
            ("total_loans", lent); ("interest_income", income);
            ("interest_expense", expense); ("fee_income", fees);
            ("operating_cost", cost); ("net_profit", profit)] /\
      assets == deposits + lent) /\
  (financial_statements conn = None \/ accounts conn = None \/ loans conn = None ->
   get_financial_summary conn = Ok zero_summary).
Proof.
  assert (financial_statements conn = None \/ accounts conn = None \/ loans conn = None ->
          get_financial_summary conn = Ok zero_summary) as Hzero.
  { intros [H | [H | H]].
    - now destruct (statements_unreadable conn H) as (_ & _ & _ & _ & ->).
    - now destruct (accounts_unreadable conn H) as (_ & _ & _ & _ & ->).
    - now destruct (loans_unreadable conn H) as (_ & _ & _ & _ & _ & _ & _ & ->). }
  split; [|exact Hzero].
  destruct (financial_statements conn) as [fs|] eqn:Hfs;
    [destruct (accounts conn) as [acs|] eqn:Hacs;
     [destruct (loans conn) as [ls|] eqn:Hls|]|].
  - rewrite (summary_readable conn fs acs ls Hfs Hacs Hls).
    do 8 eexists. split; [reflexivity|]. reflexivity.
  - rewrite Hzero by auto. do 8 eexists. split; [reflexivity|]. reflexivity.
  - rewrite Hzero by auto. do 8 eexists. split; [reflexivity|]. reflexivity.
  - rewrite Hzero by auto. do 8 eexists. split; [reflexivity|]. reflexivity.
Qed.

Lemma financial_summary_shape_witness :
  get_financial_summary
    {| financial_statements := financial_statements test_db;
       accounts := accounts test_db;
       loans := None |} = Ok zero_summary.
Proof.
  refine (proj2 (financial_summary_shape _) _). right. right. reflexivity.
Defined.

(** ** Return on assets and on equity *)

Lemma Qsum_constant {A} (f : A -> Q) (c : Q) (rows : list A) :
  (forall r, In r rows -> f r == c) ->
  Qsum (map f rows) == inject_Z (Z.of_nat (List.length rows)) * c.
Proof.
  induction rows as [|r rows IH]; intros H; cbn [map Qsum List.length].
  - ring.
  - rewrite IH by (intros; apply H; now right).
    rewrite (H r) by now left.
    rewrite Nat2Z.inj_succ. unfold Z.succ. rewrite inject_Z_plus. ring.
Qed.

Lemma recent_periods_incl (n : nat) (fs : list FinancialPeriod) (r : FinancialPeriod) :
  In r (recent_periods n fs) -> In r fs.
Proof.
  intros H. unfold recent_periods in H.
  apply (Permutation_in r (Permutation_sym (order_by_desc_perm month_geb fs))).
  rewrite <- (firstn_skipn n (order_by_desc month_geb fs)).
  apply in_or_app. now left.
Qed.

Lemma recent_periods_length (n : nat) (fs : list FinancialPeriod) :
  List.length (recent_periods n fs) = Nat.min n (List.length fs).
Proof.
  unfold recent_periods. rewrite length_firstn. f_equal. symmetry.
  apply Permutation_length, order_by_desc_perm.
Qed.

(** X10. When every period has the same net profit P and the total assets A
    are not 0, the ROA is round(min(n, 12) * P / A * 100, 2) for n periods:
    periods beyond the twelfth do not count. *)
Theorem roa_of_equal_profits (conn : Connection)
    (fs : list FinancialPeriod) (acs : list Account) (ls : list Loan) (P : Q) :
  financial_statements conn = Some fs ->
  accounts conn = Some acs ->
  loans conn = Some ls ->
  (forall r, In r fs -> net_profit r == P) ->
  ~ total_deposits_of acs + total_loans_of ls == 0 ->
  returns (calculate_roa conn)
    (fun roa =>
       roa == py_round
                (inject_Z (Z.of_nat (Nat.min 12 (List.length fs))) * P
                 / (total_deposits_of acs + total_loans_of ls) * 100) 2).
Proof.
  intros Hfs Hacs Hls HP HA.
  rewrite (roa_readable conn fs acs ls Hfs Hacs Hls).
  apply Qeq_bool_false in HA. rewrite HA. cbn [returns].
  apply py_round_comp; [|reflexivity].
  rewrite (Qsum_constant net_profit P)
    by (intros r Hr; apply HP; now apply recent_periods_incl in Hr).
  now rewrite recent_periods_length.
Qed.

Lemma roa_of_equal_profits_witness :
  returns (calculate_roa test_db)
    (fun roa => roa == py_round (12 * 300000 / (300000 + 800000) * 100) 2).
Proof.
  refine (roa_of_equal_profits test_db _ _ _ 300000 eq_refl eq_refl eq_refl _ _).
  - intros r Hr. cbn in Hr.
    repeat (destruct Hr as [<- | Hr]; [reflexivity|]). destruct Hr.
  - discriminate.
Defined.

(** X11. With positive total assets the ROE is never closer to 0 than the
    ROA: when the net profit of the window is not negative, 0 <= ROA <= ROE,
    and when it is not positive, ROE <= ROA <= 0.  The equity is 15% of the
    assets, and rounding keeps the order. *)
Theorem roe_amplifies_roa (conn : Connection)
    (fs : list FinancialPeriod) (acs : list Account) (ls : list Loan) :
  financial_statements conn = Some fs ->
  accounts conn = Some acs ->
  loans conn = Some ls ->
  0 < total_deposits_of acs + total_loans_of ls ->
  exists roa roe,
    calculate_roa conn = Ok roa /\
    calculate_roe conn = Ok roe /\
    let profit := Qsum (map net_profit (recent_periods MONTHS_FOR_ANALYSIS fs)) in
    (0 <= profit -> 0 <= roa <= roe) /\
    (profit <= 0 -> roe <= roa <= 0).
Proof.
  intros Hfs Hacs Hls HA.
  rewrite (roa_readable conn fs acs ls Hfs Hacs Hls),
          (roe_readable conn fs acs ls Hfs Hacs Hls).
  set (A := total_deposits_of acs + total_loans_of ls) in *.
  set (profit := Qsum (map net_profit (recent_periods MONTHS_FOR_ANALYSIS fs))).
  assert (Qeq_bool A 0 = false) as -> by (apply Qeq_bool_false; lra).
  assert (Qeq_bool (A * EQUITY_PERCENTAGE) 0 = false) as ->
    by (apply Qeq_bool_false; unfold EQUITY_PERCENTAGE; lra).
  do 2 eexists. split; [reflexivity|]. split; [reflexivity|].
  assert (profit / (A * EQUITY_PERCENTAGE) == profit / A * (100 # 15)) as E
    by (unfold EQUITY_PERCENTAGE; field; lra).
  cbv zeta. split; intros Hp.
  - assert (0 <= profit / A) by (apply Qle_shift_div_l; lra).
    split; [apply py_round_nonneg; lra|].
    apply py_round_monotone. rewrite E. lra.
  - assert (profit / A <= 0) by (apply Qle_shift_div_r; lra).
    split.
    + apply py_round_monotone. rewrite E. lra.
    + pose proof (py_round_upper (profit / A * 100) 0) as R.
      change (inject_Z 0) with 0 in R. lra.
Qed.

Lemma roe_amplifies_roa_witness :
  exists roa roe,
    calculate_roa test_db = Ok roa /\ calculate_roe test_db = Ok roe /\
    0 <= roa <= roe.
Proof.
  destruct (roe_amplifies_roa test_db _ _ _ eq_refl eq_refl eq_refl)
    as (roa & roe & Ha & He & Hpos & _).
  - reflexivity.
  - exists roa, roe. split; [exact Ha|]. split; [exact He|].
    apply Hpos. vm_compute. discriminate.
Defined.

(** ** The rows of the sector exposure *)

Lemma Qsum_perm (xs ys : list Q) : Permutation xs ys -> Qsum xs == Qsum ys.
Proof.
  induction 1 as [|x xs ys _ IH|x y xs|xs ys zs _ IH1 _ IH2]; cbn [Qsum].
  - reflexivity.
  - now rewrite IH.
  - ring.
  - now rewrite IH1.
Qed.

Lemma Qsum_map_plus {A} (g h : A -> Q) (keys : list A) :
  Qsum (map (fun k => g k + h k) keys) == Qsum (map g keys) + Qsum (map h keys).
Proof.
  induction keys as [|k keys IH]; cbn [map Qsum]; [ring|]. rewrite IH. ring.
Qed.

Lemma Qsum_map_ext {A} (g h : A -> Q) (keys : list A) :
  (forall k, g k == h k) -> Qsum (map g keys) == Qsum (map h keys).
Proof.
  intros H. induction keys as [|k keys IH]; cbn [map Qsum]; [reflexivity|].
  now rewrite IH, H.
Qed.

(** Only the group of its own sector counts a loan. *)
Lemma Qsum_own_sector (l : Loan) (x : Q) (keys : list string) :
  NoDup keys -> In (sector l) keys ->
  Qsum (map (fun s => if in_sector s l then x else 0) keys) == x.
Proof.
  induction 1 as [|k keys Hnotin Hnd IH]; intros Hin; [destruct Hin|].
  cbn [map Qsum]. unfold in_sector at 1.
  destruct (String.eqb_spec (sector l) k) as [E|E].
  - assert (Qsum (map (fun s => if in_sector s l then x else 0) keys) == 0) as ->.
    { clear IH Hin Hnd. subst k.
      induction keys as [|k' keys IH']; cbn [map Qsum]; [reflexivity|].
      unfold in_sector at 1.
      destruct (String.eqb_spec (sector l) k') as [E'|E'].
      - exfalso. apply Hnotin. now left.
      - rewrite IH' by (intros H; apply Hnotin; now right). ring. }
    ring.
  - rewrite IH by (destruct Hin as [Hin|Hin]; [congruence | exact Hin]). ring.
Qed.

(** The groups of [GROUP BY sector] split the table: what is summed over the
    groups is summed over the loans. *)
Lemma Qsum_by_sector (f : Loan -> Q) (keys : list string) (ls : list Loan) :
  NoDup keys ->
  (forall l, In l ls -> In (sector l) keys) ->
  Qsum (map (fun s => Qsum (map f (filter (in_sector s) ls))) keys)
  == Qsum (map f ls).
Proof.
  intros Hnd. induction ls as [|l ls IH]; intros Hin.
  - clear. induction keys as [|k keys IHk]; cbn [filter map Qsum] in *; [reflexivity|].
    rewrite IHk. ring.
  - rewrite (Qsum_map_ext _
               (fun s => (if in_sector s l then f l else 0)
                         + Qsum (map f (filter (in_sector s) ls)))).
    + rewrite Qsum_map_plus, Qsum_own_sector, IH; cbn [map Qsum];
        [reflexivity | | exact Hnd |].
      * intros l' Hl'. apply Hin. now right.
      * apply Hin. now left.
    + intros s. cbn [filter]. destruct (in_sector s l); cbn [map Qsum]; ring.
Qed.

Lemma count_of_as_sum {A} (xs : list A) : count_of xs == Qsum (map (fun _ => 1) xs).
Proof.
  unfold count_of. induction xs as [|x xs IH]; cbn [List.length map Qsum].
  - reflexivity.
  - rewrite <- IH, Nat2Z.inj_succ. unfold Z.succ. rewrite inject_Z_plus. ring.
Qed.

Lemma sector_keys (ls : list Loan) :
  NoDup (nodup string_dec (map sector ls)) /\
  forall l, In l ls -> In (sector l) (nodup string_dec (map sector ls)).
Proof.
  split; [apply NoDup_nodup|]. intros l Hl. apply nodup_In. now apply in_map.
Qed.

Lemma sector_rows_sum (f : Loan -> Q) (g : SectorRow -> Q) (ls : list Loan) :
  (forall s, g (sector_row ls s) == Qsum (map f (filter (in_sector s) ls))) ->
  Qsum (map g (sector_rows ls)) == Qsum (map f ls).
Proof.
  intros Hg. destruct (sector_keys ls) as [Hnd Hin].
  rewrite <- (Qsum_perm _ _ (Permutation_map g (sector_rows_perm ls))).
  rewrite map_map. rewrite (Qsum_map_ext _ _ _ Hg).
  now apply Qsum_by_sector.
Qed.

Lemma sector_rows_sectors (ls : list Loan) :
  Permutation (nodup string_dec (map sector ls)) (map row_sector (sector_rows ls)).
Proof.
  rewrite <- (Permutation_map row_sector (sector_rows_perm ls)).
  rewrite map_map. cbn [sector_row row_sector]. now rewrite map_id.
Qed.

(** X6. On a readable loans table the frame of
    [calculate_credit_exposure_by_sector] has one row for each sector that
    has a loan and no other row, and its rows split the table: the
    [loan_count] column sums to the number of loans and the [total_exposure]
    column to the total amount of the loans. *)
Theorem sector_rows_split_the_loans (conn : Connection) (ls : list Loan) :
  loans conn = Some ls ->
  returns (calculate_credit_exposure_by_sector conn)
    (fun df =>
       exists sectors counts totals,
         df.["sector"] = Ok (map Str sectors) /\
         NoDup sectors /\
         (forall s, In s sectors <-> exists l, In l ls /\ sector l = s) /\
         len df = List.length sectors /\
         df.["loan_count"] = Ok (map Num counts) /\
         Qsum counts == count_of ls /\
         df.["total_exposure"] = Ok (map Num totals) /\
         Qsum totals == total_loans_of ls).
Proof.
  intros Hls. rewrite (exposure_readable conn ls Hls). cbn [returns].
  exists (map row_sector (sector_rows ls)), (map row_loan_count (sector_rows ls)),
    (sector_totals ls).
  assert ((exposure_frame ls).["sector"]
            = Ok (map Str (map row_sector (sector_rows ls))) /\
          len (exposure_frame ls) = List.length (map row_sector (sector_rows ls)) /\
          (exposure_frame ls).["loan_count"]
            = Ok (map Num (map row_loan_count (sector_rows ls))) /\
          (exposure_frame ls).["total_exposure"] = Ok (map Num (sector_totals ls)))
    as (H1 & H2 & H3 & H4).
  { unfold exposure_frame, sector_totals, num_column.
    destruct (List.length (sector_rows ls) =? 0)%nat;
      cbn [eval_loans setitem getitem len String.eqb Ascii.eqb Bool.eqb];
      unfold num_column; rewrite !map_map, !length_map; repeat split. }
  split; [exact H1|].
  split; [eapply Permutation_NoDup; [apply sector_rows_sectors | apply NoDup_nodup]|].
  split.
  { intros s. rewrite <- (Permutation_in' (eq_refl s) (sector_rows_sectors ls)).
    rewrite nodup_In, in_map_iff. split; intros (l & H & H'); exists l; tauto. }
  split; [exact H2|]. split; [exact H3|].
  split; [|split; [exact H4|]].
  - rewrite count_of_as_sum. apply sector_rows_sum.
    intros s. cbn [sector_row row_loan_count]. apply count_of_as_sum.
  - unfold sector_totals, total_loans_of. apply sector_rows_sum.
    intros s. reflexivity.
Qed.

Lemma sector_rows_split_the_loans_witness :
  returns (calculate_credit_exposure_by_sector test_db)
    (fun df =>
       exists counts totals,
         df.["loan_count"] = Ok (map Num counts) /\ Qsum counts == 2 /\
         df.["total_exposure"] = Ok (map Num totals) /\ Qsum totals == 800000).
Proof.
  pose proof (sector_rows_split_the_loans test_db _ eq_refl) as H.
  destruct (calculate_credit_exposure_by_sector test_db) as [df|]; [|exact H].
  destruct H as (sectors & counts & totals & _ & _ & _ & _ & Hc & Hcs & Ht & Hts).
  exists counts, totals. split; [exact Hc|]. split; [exact Hcs|]. split; [exact Ht|].
  exact Hts.
Defined.

Lemma sector_rows_forall (P : SectorRow -> Prop) (ls : list Loan) :
  (forall s l, In l ls -> sector l = s -> P (sector_row ls s)) ->
  Forall P (sector_rows ls).
Proof.
  intros H. eapply Permutation_Forall; [apply sector_rows_perm|].
  apply Forall_map, Forall_forall. intros s Hs.
  apply nodup_In, in_map_iff in Hs as (l & Hl & Hin). now apply (H s l).
Qed.

Lemma sector_group_nonempty (ls : list Loan) (s : string) (l : Loan) :
  In l ls -> sector l = s -> filter (in_sector s) ls <> [].
Proof.
  intros Hin Hs H.
  assert (In l (filter (in_sector s) ls)) as Hf
    by (apply filter_In; split; [exact Hin | unfold in_sector; now apply String.eqb_eq]).
  now rewrite H in Hf.
Qed.

(** X7. In the frame of [calculate_credit_exposure_by_sector] every sector
    has at least one loan, so that the division for [default_rate] never has
    a zero divisor, and every [default_rate] is a percentage between 0 and
    100. *)
Theorem sector_default_rates_are_percentages (conn : Connection) (ls : list Loan) :
  loans conn = Some ls ->
  ls <> [] ->
  returns (calculate_credit_exposure_by_sector conn)
    (fun df =>
       exists counts rates,
         df.["loan_count"] = Ok (map Num counts) /\
         Forall (fun n => 1 <= n) counts /\
         df.["default_rate"] = Ok (map Num rates) /\
         List.length rates = len df /\
         Forall (fun v => 0 <= v <= 100) rates).
Proof.
  intros Hls Hne. rewrite (exposure_readable conn ls Hls). cbn [returns].
  assert (sector_rows ls <> []) as Hrows by now rewrite sector_rows_nil.
  assert (Forall (fun r => 1 <= row_loan_count r /\
                           0 <= row_defaulted_count r <= row_loan_count r)
                 (sector_rows ls)) as Hall.
  { apply sector_rows_forall. intros s l Hin Hs.
    cbn [sector_row row_loan_count row_defaulted_count].
    split; [|apply count_of_filter_le].
    pose proof (sector_group_nonempty ls s l Hin Hs) as Hg.
    destruct (filter (in_sector s) ls) as [|x g]; [easy|].
    unfold count_of. change 1 with (inject_Z 1). rewrite <- Zle_Qle.
    cbn [List.length]. lia. }
  exists (map row_loan_count (sector_rows ls)),
    (map (fun r => row_defaulted_count r / row_loan_count r * 100) (sector_rows ls)).
  unfold exposure_frame.
  destruct (List.length (sector_rows ls) =? 0)%nat eqn:E.
  { apply Nat.eqb_eq, length_zero_iff_nil in E. contradiction. }
  cbn [eval_loans setitem getitem len String.eqb Ascii.eqb Bool.eqb].
  unfold num_column. rewrite !map_map, !length_map.
  split; [reflexivity|].
  split; [apply Forall_map; eapply Forall_impl; [|exact Hall]; cbn; tauto|].
  split; [|split; [reflexivity|]].
  - f_equal. apply map_ext_in. intros r Hr.
    rewrite Forall_forall in Hall. destruct (Hall r Hr) as [H1 _].
    unfold ratio_cell.
    assert (Qeq_bool (row_loan_count r) 0 = false) as ->
      by (apply Qeq_bool_false; lra).
    reflexivity.
  - apply Forall_map. eapply Forall_impl; [|exact Hall].
    cbn. intros r (H1 & H0 & H2).
    assert (0 <= row_defaulted_count r / row_loan_count r)
      by (apply Qle_shift_div_l; lra).
    assert (row_defaulted_count r / row_loan_count r <= 1)
      by (apply Qle_shift_div_r; lra).
    lra.
Qed.

Lemma sector_default_rates_are_percentages_witness :
  returns (calculate_credit_exposure_by_sector test_db)
    (fun df =>
       exists rates,
         df.["default_rate"] = Ok (map Num rates) /\
         Forall (fun v => 0 <= v <= 100) rates).
Proof.
  pose proof (sector_default_rates_are_percentages test_db _ eq_refl) as H.
  destruct (calculate_credit_exposure_by_sector test_db) as [df|].
  - destruct H as (counts & rates & _ & _ & Hr & _ & Hb); [discriminate|].
    exists rates. split; [exact Hr | exact Hb].
  - apply H. discriminate.
Defined.

Lemma Qsum_ge_member (xs : list Q) (x : Q) :
  Forall (fun y => 0 <= y) xs -> In x xs -> x <= Qsum xs.
Proof.
  induction 1 as [|y xs Hy Hxs IH]; intros Hin; [destruct Hin|].
  pose proof (Qsum_nonneg xs Hxs). cbn [Qsum].
  destruct Hin as [<- | Hin]; [lra | specialize (IH Hin); lra].
Qed.

(** X8. On a source of the data model with at least one loan every
    [exposure_pct] of the frame of [calculate_credit_exposure_by_sector] is a
    share above 0 and at most 100. *)
Theorem sector_shares_are_percentages (conn : Connection) (ls : list Loan) :
  loans conn = Some ls ->
  positive_amounts ls ->
  ls <> [] ->
  returns (calculate_credit_exposure_by_sector conn)
    (fun df =>
       exists shares,
         df.["exposure_pct"] = Ok (map Num shares) /\
         List.length shares = len df /\
         Forall (fun v => 0 < v <= 100) shares).
Proof.
  intros Hls Hpos Hne. rewrite (exposure_readable conn ls Hls). cbn [returns].
  assert (sector_rows ls <> []) as Hrows by now rewrite sector_rows_nil.
  pose proof (sector_totals_positive ls Hpos) as Htot.
  assert (0 < Qsum (sector_totals ls)) as HT
    by (apply Qsum_pos; [exact Htot | now apply sector_totals_nonempty]).
  exists (map (fun t => t / Qsum (sector_totals ls) * 100) (sector_totals ls)).
  unfold exposure_frame.
  destruct (List.length (sector_rows ls) =? 0)%nat eqn:E.
  { apply Nat.eqb_eq, length_zero_iff_nil in E. contradiction. }
  split; [|split].
  - rewrite getitem_setitem. f_equal. unfold sector_totals. rewrite !map_map.
    apply map_ext. intros r. unfold pct_cell, ratio_cell.
    assert (Qeq_bool (Qsum (map row_total_exposure (sector_rows ls))) 0 = false) as ->
      by (apply Qeq_bool_false; fold (sector_totals ls); lra).
    reflexivity.
  - cbn [eval_loans setitem len String.eqb Ascii.eqb Bool.eqb].
    unfold sector_totals. now rewrite !length_map.
  - apply Forall_map, Forall_forall. intros t Ht.
    assert (0 < t) as Hpt by (rewrite Forall_forall in Htot; now apply Htot).
    assert (t <= Qsum (sector_totals ls)) as Hle.
    { apply Qsum_ge_member; [|exact Ht].
      eapply Forall_impl; [|exact Htot]. cbn. intros; lra. }
    assert (0 < t / Qsum (sector_totals ls)) by (apply Qlt_shift_div_l; lra).
    assert (t / Qsum (sector_totals ls) <= 1) by (apply Qle_shift_div_r; lra).
    lra.
Qed.

Lemma sector_shares_are_percentages_witness :
  returns (calculate_credit_exposure_by_sector test_db)
    (fun df =>
       exists shares,
         df.["exposure_pct"] = Ok (map Num shares) /\
         Forall (fun v => 0 < v <= 100) shares).
Proof.
  pose proof (sector_shares_are_percentages test_db _ eq_refl) as H.
  destruct (calculate_credit_exposure_by_sector test_db) as [df|].
  - destruct H as (shares & Hs & _ & Hb); [repeat constructor | discriminate |].
    exists shares. split; [exact Hs | exact Hb].
  - apply H; [repeat constructor | discriminate].
Defined.

(** * Properties of [app.py] *)

(** ** Risk level and health status *)

Lemma risk_level_cases (r : float) :
  (r < 30 /\ risk_level r = "Baixo") \/
  (30 <= r < 60 /\ risk_level r = "Médio") \/
  (60 <= r /\ risk_level r = "Alto").
Proof.
  unfold risk_level.
  destruct (Qltb r 30) eqn:E1; [apply Qltb_true in E1; now left|].
  apply Qltb_false in E1.
  destruct (Qltb r 60) eqn:E2; [apply Qltb_true in E2 | apply Qltb_false in E2];
    right; [left | right]; split; try easy; lra.
Qed.

Lemma health_status_cases (r : float) :
  (r <= 30 /\ health_status r = "Excelente") \/
  (30 < r <= 50 /\ health_status r = "Boa") \/
  (50 < r /\ health_status r = "Atenção Necessária").
Proof.
  unfold health_status.
  destruct (Qle_bool 70 (100 - r)) eqn:E1.
  - apply Qle_bool_iff in E1. left. split; [lra | reflexivity].
  - assert (~ 70 <= 100 - r) as N1
      by (rewrite <- Qle_bool_iff, E1; discriminate).
    destruct (Qle_bool 50 (100 - r)) eqn:E2.
    + apply Qle_bool_iff in E2. right. left. split; [|reflexivity].
      split; [apply Qnot_le_lt; intros H; apply N1; lra | lra].
    + assert (~ 50 <= 100 - r) as N2
        by (rewrite <- Qle_bool_iff, E2; discriminate).
      right. right. split; [|reflexivity].
      apply Qnot_le_lt. intros H. apply N2. lra.
Qed.

(** X9. The two readings of the risk index on the overview page agree at
    the ends and not in the middle: a risk level "Baixo" always comes with the
    health status "Excelente" and a risk level "Alto" with "Atenção
    Necessária", while the level "Médio" comes with "Excelente" at an index of
    exactly 30, with "Boa" up to 50 and with "Atenção Necessária" above. *)
Theorem risk_level_against_health_status (r : float) :
  (risk_level r = "Baixo" -> health_status r = "Excelente") /\
  (risk_level r = "Alto" -> health_status r = "Atenção Necessária") /\
  (risk_level r = "Médio" ->
   (health_status r = "Excelente" <-> r == 30) /\
   (health_status r = "Boa" <-> 30 < r <= 50) /\
   (health_status r = "Atenção Necessária" <-> 50 < r)).
Proof.
  destruct (risk_level_cases r) as [[B ->] | [[B ->] | [B ->]]];
    destruct (health_status_cases r) as [[H ->] | [[H ->] | [H ->]]];
    repeat split; intros; try discriminate; try reflexivity; try lra.
Qed.

Lemma risk_level_against_health_status_witness :
  risk_level 30 = "Médio" /\ health_status 30 = "Excelente".
Proof.
  destruct (risk_level_against_health_status 30) as (_ & _ & H).
  destruct (H eq_refl) as ((_ & H30) & _ & _).
  split; [reflexivity | apply H30; reflexivity].
Defined.

(** ** The chart of the risk components *)

Lemma chart_liquidity_against_score (ldr : float) :
  let chart := py_min (py_abs (ldr - 90) * (1 # 2)) 20 in
  liquidity_score ldr <= chart <= liquidity_score ldr + 5 /\
  (chart == liquidity_score ldr <-> ldr <= 40 \/ ldr == 90 \/ 140 <= ldr).
Proof.
  cbv zeta. unfold py_abs, liquidity_score.
  destruct (Qlt_le_dec (ldr - 90) 0) as [Hs | Hs];
    [rewrite (Qabs_neg (ldr - 90)) by lra | rewrite (Qabs_pos (ldr - 90)) by lra];
    destruct (Qltb ldr 80) eqn:E1;
    destruct (Qltb 100 ldr) eqn:E2;
    rewrite ?Qltb_true, ?Qltb_false in *;
    match goal with
    | |- context [py_min ?a 20 <= py_min ?b 20 <= _] =>
        destruct (py_min_cases a 20) as [[Ha ->] | [Ha ->]];
        destruct (py_min_cases b 20) as [[Hb ->] | [Hb ->]]
    end;
    try lra;
    (split; [lra|]); (split; [intros H | intros [H | [H | H]]]); try lra;
    try (left; lra); try (right; left; lra); try (right; right; lra).
Qed.

(** X12. The chart of the risk components on the risk page is not the
    composition of the index.  Its NPL and default bars are the scores of
    [calculate_bank_risk_index]; its liquidity bar, measured from an LDR of 90,
    is never below the liquidity score and at most 5 above it, and equal to
    it only for an LDR of at most 40, of exactly 90 or of at least 140; its
    concentration bar is always 10.  On a source of the data model no bar is
    below the score it stands for. *)
Theorem risk_chart_against_risk_scores (conn : Connection) :
  exists ldr npl_score ldr_score default_score concentration chart_ldr,
    calculate_loan_to_deposit_ratio conn = Ok ldr /\
    risk_scores conn = Ok (npl_score, ldr_score, default_score, concentration) /\
    risk_components conn =
      Ok [("NPL Ratio", npl_score); ("Loan-to-Deposit", chart_ldr);
          ("Default Rate", default_score); ("Concentração", 10)] /\
    ldr_score <= chart_ldr <= ldr_score + 5 /\
    (chart_ldr == ldr_score <-> ldr <= 40 \/ ldr == 90 \/ 140 <= ldr) /\
    (valid_loans conn -> concentration <= 10).
Proof.
  destruct (risk_scores_eq conn) as (npl & ldr & rc & rv & Hn & Hl & Hd & Hs).
  pose proof (risk_index_of_scores conn _ _ _ _ Hs) as Hv.
  destruct (concentration_score_exposure conn) as (df & Hdf & _).
  exists ldr, (py_min (npl * 10) 40), (liquidity_score ldr), (py_min (rv * 3) 30),
    (concentration_of conn), (py_min (py_abs (ldr - 90) * (1 # 2)) 20).
  split; [exact Hl|]. split; [exact Hs|].
  split; [unfold risk_components; now rewrite Hd, Hn, Hv, Hdf, Hl|].
  destruct (chart_liquidity_against_score ldr) as [B E].
  split; [exact B|]. split; [exact E|].
  intros Hvalid. now apply concentration_bounds.
Qed.

(** ** The overview page *)

(** X13. The [except] branch of [show_bank_overview] is dead once there is a
    connection: the six calculators it calls all return.  Where no table can
    be read the page shows a summary of zeros, indicators of 0.0 and the risk
    index 30, with the health status "Excelente". *)
Theorem overview_always_loads (conn : Connection) :
  (exists v, overview_metrics conn = Ok v) /\
  (financial_statements conn = None -> accounts conn = None -> loans conn = None ->
   returns (overview_metrics conn)
     (fun '(summary, roa, roe, nim, cir, risk_index) =>
        summary = zero_summary /\ roa = 0 /\ roe = 0 /\ nim = 0 /\ cir = 0 /\
        risk_index == 30 /\ health_status risk_index = "Excelente")).
Proof.
  destruct (risk_scores_eq conn) as (npl & ldr & rc & rv & Hn & Hl & Hd & Hs).
  pose proof (risk_index_of_scores conn _ _ _ _ Hs) as Hidx.
  assert (exists sm, get_financial_summary conn = Ok sm) as [sm Hsm]
    by (unfold get_financial_summary; apply try_except_returns).
  destruct (calculate_roa conn) as [roa|] eqn:Hroa.
  2:{ pose proof (roa_rounded conn) as R. now rewrite Hroa in R. }
  destruct (calculate_roe conn) as [roe|] eqn:Hroe.
  2:{ pose proof (roe_rounded conn) as R. now rewrite Hroe in R. }
  destruct (calculate_net_interest_margin conn) as [nim|] eqn:Hnim.
  2:{ pose proof (nim_rounded conn) as R. now rewrite Hnim in R. }
  destruct (calculate_cost_to_income_ratio conn) as [cir|] eqn:Hcir.
  2:{ pose proof (cir_rounded conn) as R. now rewrite Hcir in R. }
  assert (overview_metrics conn
          = Ok (sm, roa, roe, nim, cir,
                py_round (py_min (py_min (npl * 10) 40 + liquidity_score ldr
                                  + py_min (rv * 3) 30 + concentration_of conn) 100) 2))
    as Hov by (unfold overview_metrics; now rewrite Hsm, Hroa, Hroe, Hnim, Hcir, Hidx).
  split; [eexists; exact Hov|].
  intros Hfs Hacs Hls. rewrite Hov. cbv beta iota.
  destruct (statements_unreadable conn Hfs) as (Enim & Eroa & Eroe & Ecir & Esm).
  destruct (loans_unreadable conn Hls) as (_ & _ & _ & Eldr & Edr & Enpl & _).
  rewrite Esm in Hsm. rewrite Eroa in Hroa. rewrite Eroe in Hroe.
  rewrite Enim in Hnim. rewrite Ecir in Hcir. rewrite Eldr in Hl.
  rewrite Edr in Hd. rewrite Enpl in Hn.
  injection Hsm as <-. injection Hroa as <-. injection Hroe as <-.
  injection Hnim as <-. injection Hcir as <-. injection Hl as <-.
  injection Hd as <- <-. injection Hn as <-.
  repeat (split; [reflexivity|]).
  assert (concentration_of conn = 10) as -> by (unfold concentration_of; now rewrite Hls).
  split; reflexivity.
Qed.

Lemma overview_always_loads_witness :
  returns (overview_metrics broken_db)
    (fun '(summary, roa, roe, nim, cir, risk_index) =>
       summary = zero_summary /\ roa = 0 /\ roe = 0 /\ nim = 0 /\ cir = 0 /\
       risk_index == 30 /\ health_status risk_index = "Excelente").
Proof.
  exact (proj2 (overview_always_loads broken_db) eq_refl eq_refl eq_refl).
Defined.

Lemma risk_chart_against_risk_scores_witness :
  exists concentration,
    (exists npl_score ldr_score default_score,
        risk_scores test_db = Ok (npl_score, ldr_score, default_score, concentration)) /\
    concentration <= 10.
Proof.
  destruct (risk_chart_against_risk_scores test_db)
    as (ldr & a & b & c & d & chart & _ & Hs & _ & _ & _ & Hd).
  exists d. split; [now exists a, b, c|].
  apply Hd. repeat constructor.
Defined.

(** ** Formatting *)

Lemma round_half_even_close (x : Q) :
  x - (1 # 2) <= inject_Z (round_half_even x) <= x + (1 # 2).
Proof.
  pose proof (Qfloor_le x) as L. pose proof (Qlt_floor x) as U.
  rewrite inject_Z_plus in U. change (inject_Z 1) with 1 in U.
  unfold round_half_even.
  destruct (Qltb (x - inject_Z (Qfloor x)) (1 # 2)) eqn:E1;
    [apply Qltb_true in E1; lra | apply Qltb_false in E1].
  destruct (Qltb (1 # 2) (x - inject_Z (Qfloor x))) eqn:E2;
    [apply Qltb_true in E2 | apply Qltb_false in E2].
  - rewrite inject_Z_plus. change (inject_Z 1) with 1. lra.
  - destruct (Z.even (Qfloor x)); [lra|].
    rewrite inject_Z_plus. change (inject_Z 1) with 1. lra.
Qed.

Lemma round_half_even_nearest (x : Q) (k : Z) :
  inject_Z k - (1 # 2) < x < inject_Z k + (1 # 2) -> round_half_even x = k.
Proof.
  intros [L U]. pose proof (round_half_even_close x) as [L' U'].
  assert (inject_Z (k - 1) < inject_Z (round_half_even x) < inject_Z (k + 1)) as [A B].
  { unfold Z.sub. rewrite !inject_Z_plus, inject_Z_opp.
    change (inject_Z 1) with 1. lra. }
  rewrite <- Zlt_Qlt in A, B. lia.
Qed.

Lemma format_2f_rounds_to (x : float) (k : Z) :
  0 <= x ->
  inject_Z k - (1 # 2) < x * 100 < inject_Z k + (1 # 2) ->
  format_2f x
  = decimal (k / 100) ++ "." ++ decimal (k / 10 mod 10) ++ decimal (k mod 10).
Proof.
  intros H0 Hk. unfold format_2f, py_abs.
  assert (Qltb x 0 = false) as -> by (apply Qltb_false; exact H0).
  rewrite (Qabs_pos x H0), (round_half_even_nearest _ k Hk). reflexivity.
Qed.

(** X14. [format_currency] picks the unit before it rounds, so a value just
    below a threshold is shown as 1000.00 of the smaller unit: anything
    above 999.995 and below 1000 is "$1000.00", above 999995 and below a
    million "$1000.00K", above 999995000 and below a billion "$1000.00M". *)
Theorem format_currency_below_threshold (v : float) :
  (999995 # 1000 < v < 1000 -> format_currency v = "$1000.00") /\
  (999995 < v < 1000000 -> format_currency v = "$1000.00K") /\
  (999995000 < v < 1000000000 -> format_currency v = "$1000.00M").
Proof.
  unfold format_currency.
  split; [|split]; intros [L U].
  - assert (Qle_bool 1000000000 v = false) as ->
      by (apply not_true_iff_false; rewrite Qle_bool_iff; lra).
    assert (Qle_bool 1000000 v = false) as ->
      by (apply not_true_iff_false; rewrite Qle_bool_iff; lra).
    assert (Qle_bool 1000 v = false) as ->
      by (apply not_true_iff_false; rewrite Qle_bool_iff; lra).
    rewrite (format_2f_rounds_to v 100000);
      [reflexivity | lra | change (inject_Z 100000) with 100000; lra].
  - assert (Qle_bool 1000000000 v = false) as ->
      by (apply not_true_iff_false; rewrite Qle_bool_iff; lra).
    assert (Qle_bool 1000000 v = false) as ->
      by (apply not_true_iff_false; rewrite Qle_bool_iff; lra).
    assert (Qle_bool 1000 v = true) as -> by (apply Qle_bool_iff; lra).
    change (v / 1000) with (v * (1 # 1000)).
    rewrite (format_2f_rounds_to (v * (1 # 1000)) 100000);
      [reflexivity | lra | change (inject_Z 100000) with 100000; lra].
  - assert (Qle_bool 1000000000 v = false) as ->
      by (apply not_true_iff_false; rewrite Qle_bool_iff; lra).
    assert (Qle_bool 1000000 v = true) as -> by (apply Qle_bool_iff; lra).
    change (v / 1000000) with (v * (1 # 1000000)).
    rewrite (format_2f_rounds_to (v * (1 # 1000000)) 100000);
      [reflexivity | lra | change (inject_Z 100000) with 100000; lra].
Qed.

Lemma format_currency_below_threshold_witness :
  format_currency 999999 = "$1000.00K".
Proof.
  apply (proj1 (proj2 (format_currency_below_threshold 999999))).
  split; reflexivity.
Defined.

(** X15. [format_currency] never abbreviates a negative amount: below 0 the
    result is "$-" followed by the plain two-decimal form of the absolute
    value, however large, without K, M or B. *)
Theorem format_currency_of_negative (v : float) :
  v < 0 -> format_currency v = "$-" ++ format_2f (- v).
Proof.
  intros H. unfold format_currency.
  assert (Qle_bool 1000000000 v = false) as ->
    by (apply not_true_iff_false; rewrite Qle_bool_iff; lra).
  assert (Qle_bool 1000000 v = false) as ->
    by (apply not_true_iff_false; rewrite Qle_bool_iff; lra).
  assert (Qle_bool 1000 v = false) as ->
    by (apply not_true_iff_false; rewrite Qle_bool_iff; lra).
  unfold format_2f, py_abs.
  assert (Qltb v 0 = true) as -> by now apply Qltb_true.
  assert (Qltb (- v) 0 = false) as -> by (apply Qltb_false; lra).
  assert (Qabs (- v) * 100 == Qabs v * 100) as E by now rewrite Qabs_opp.
  rewrite (round_half_even_comp _ _ E). reflexivity.
Qed.

Lemma format_currency_of_negative_witness :
  format_currency (-5000000) = "$-5000000.00".
Proof.
  rewrite (format_currency_of_negative (-5000000)); reflexivity.
Defined.

(** ** The display of a percentage *)

Lemma string_length_append (s t : string) :
  String.length (s ++ t) = (String.length s + String.length t)%nat.
Proof. induction s as [|c s IH]; cbn [String.append String.length]; [reflexivity | now rewrite IH]. Qed.

Lemma string_app_inv (s1 s2 t1 t2 : string) :
  String.length t1 = String.length t2 ->
  s1 ++ t1 = s2 ++ t2 -> s1 = s2 /\ t1 = t2.
Proof.
  revert s2. induction s1 as [|c s1 IH]; intros [|c' s2] Hlen H; cbn [String.append] in H.
  - now split.
  - exfalso. apply (f_equal String.length) in H.
    cbn [String.length] in H. rewrite string_length_append in H. lia.
  - exfalso. apply (f_equal String.length) in H.
    cbn [String.length] in H. rewrite string_length_append in H. lia.
  - injection H as <- H. destruct (IH s2 Hlen H) as [-> ->]. now split.
Qed.

Lemma to_uint_nonnil (n : N) : N.to_uint n <> Decimal.Nil.
Proof.
  intros H. pose proof (DecimalN.Unsigned.of_to n) as E. rewrite H in E.
  cbn in E. subst n. discriminate H.
Qed.

Lemma decimal_reads_back (n : Z) :
  NilZero.uint_of_string (decimal n) = Some (N.to_uint (Z.to_N n)).
Proof. unfold decimal. apply NilZero.usu, to_uint_nonnil. Qed.

Lemma decimal_inj (n m : Z) : (0 <= n)%Z -> (0 <= m)%Z -> decimal n = decimal m -> n = m.
Proof.
  intros Hn Hm H. apply (f_equal NilZero.uint_of_string) in H.
  rewrite !decimal_reads_back in H. injection H as H.
  apply DecimalN.Unsigned.to_uint_inj in H. now apply Z2N.inj.
Qed.

(** A number never prints as the empty string or with a sign. *)
Lemma decimal_head (n : Z) :
  exists c s, decimal n = String c s /\ c <> "-"%char.
Proof.
  pose proof (decimal_reads_back n) as H.
  destruct (decimal n) as [|c s]; [discriminate H|].
  exists c, s. split; [reflexivity|]. intros ->.
  cbn in H. now destruct (NilEmpty.uint_of_string s).
Qed.

Lemma decimal_digit (k : Z) : (0 <= k < 10)%Z -> exists c, decimal k = String c "".
Proof.
  intros H.
  assert (k = 0 \/ k = 1 \/ k = 2 \/ k = 3 \/ k = 4 \/ k = 5 \/ k = 6 \/ k = 7
          \/ k = 8 \/ k = 9)%Z as E by lia.
  repeat (destruct E as [-> | E]; [eexists; reflexivity|]). subst k.
  eexists; reflexivity.
Qed.

Lemma hundredths_inj (n m : Z) :
  (0 <= n)%Z -> (0 <= m)%Z -> hundredths n = hundredths m -> n = m.
Proof.
  intros Hn Hm H. unfold hundredths in H.
  destruct (decimal_digit (n / 10 mod 10)) as [a Ha]; [apply Z.mod_pos_bound; lia|].
  destruct (decimal_digit (n mod 10)) as [b Hb]; [apply Z.mod_pos_bound; lia|].
  destruct (decimal_digit (m / 10 mod 10)) as [a' Ha']; [apply Z.mod_pos_bound; lia|].
  destruct (decimal_digit (m mod 10)) as [b' Hb']; [apply Z.mod_pos_bound; lia|].
  rewrite Ha, Hb, Ha', Hb' in H.
  apply string_app_inv in H; [|reflexivity]. destruct H as [H1 H2].
  injection H2 as -> ->. rewrite <- Ha' in Ha. rewrite <- Hb' in Hb.
  apply decimal_inj in H1; [| apply Z.div_pos; lia | apply Z.div_pos; lia].
  apply decimal_inj in Ha; [| apply Z.mod_pos_bound; lia | apply Z.mod_pos_bound; lia].
  apply decimal_inj in Hb; [| apply Z.mod_pos_bound; lia | apply Z.mod_pos_bound; lia].
  pose proof (Z.div_mod n 10 ltac:(lia)) as D1.
  pose proof (Z.div_mod m 10 ltac:(lia)) as D2.
  pose proof (Z.div_mod (n / 10) 10 ltac:(lia)) as D3.
  pose proof (Z.div_mod (m / 10) 10 ltac:(lia)) as D4.
  assert (n / 10 / 10 = m / 10 / 10)%Z as D5
    by (rewrite !Z.div_div by lia; exact H1).
  lia.
Qed.

Lemma hundredths_head (n : Z) : exists c s, hundredths n = String c s /\ c <> "-"%char.
Proof.
  unfold hundredths. destruct (decimal_head (n / 100)) as (c & s & -> & Hc).
  cbn [String.append]. eauto.
Qed.

Lemma format_2f_of_hundredths (x : float) (z : Z) :
  x * 100 == inject_Z z ->
  format_2f x = (if (z <? 0)%Z then "-" else "") ++ hundredths (Z.abs z).
Proof.
  intros H. unfold format_2f, hundredths, py_abs.
  assert (Qltb x 0 = (z <? 0)%Z) as ->.
  { apply eq_true_iff_eq. rewrite Qltb_true, Z.ltb_lt, Zlt_Qlt.
    change (inject_Z 0) with 0. split; intros; lra. }
  assert (Qabs x * 100 == inject_Z (Z.abs z)) as E.
  { assert (Qabs x * 100 == Qabs (x * 100)) as ->
      by (rewrite Qabs_Qmult; reflexivity).
    rewrite H. reflexivity. }
  rewrite (round_half_even_nearest (Qabs x * 100) (Z.abs z)) by lra.
  reflexivity.
Qed.

(** X16. What [format_percentage] shows of a value with two decimal places,
    which is what every metric calculator returns, is exact: two such values
    that are shown alike are equal. *)
Theorem format_percentage_is_exact (x y : float) :
  two_decimals x -> two_decimals y ->
  format_percentage x = format_percentage y -> x == y.
Proof.
  intros [z Hz] [z' Hz'] H. unfold format_percentage in H.
  apply string_app_inv in H; [|reflexivity]. destruct H as [H _].
  rewrite (format_2f_of_hundredths x z Hz), (format_2f_of_hundredths y z' Hz') in H.
  assert (z = z') as E.
  { destruct (z <? 0)%Z eqn:S; destruct (z' <? 0)%Z eqn:S';
      rewrite ?Z.ltb_lt, ?Z.ltb_ge in S, S'; cbn [String.append] in H.
    - injection H as H. apply hundredths_inj in H; lia.
    - destruct (hundredths_head (Z.abs z')) as (c & s & Hh & Hc).
      rewrite Hh in H. injection H as H _. congruence.
    - destruct (hundredths_head (Z.abs z)) as (c & s & Hh & Hc).
      rewrite Hh in H. injection H as H _. congruence.
    - apply hundredths_inj in H; lia. }
  subst z'. assert (x * 100 == y * 100) by now rewrite Hz, Hz'. lra.
Qed.

Lemma format_percentage_is_exact_witness :
  format_percentage (py_round (37499 # 1000) 2) = "37.50%" /\
  py_round (37499 # 1000) 2 == 37.5.
Proof.
  split; [reflexivity|].
  apply format_percentage_is_exact.
  - apply py_round_two_decimals.
  - exists 3750%Z. reflexivity.
  - reflexivity.
Defined.

(** * The order of the rows *)

Lemma Permutation_filter {A} (f : A -> bool) (l l' : list A) :
  Permutation l l' -> Permutation (filter f l) (filter f l').
Proof.
  induction 1 as [|x l l' _ IH|x y l|l l' l'' _ IH1 _ IH2]; cbn [filter].
  - constructor.
  - destruct (f x); [now constructor | exact IH].
  - destruct (f x), (f y); try reflexivity. apply perm_swap.
  - now transitivity (filter f l').
Qed.

(** Rows in descending order of distinct months are in one order only. *)
Lemma sorted_months_unique (l1 l2 : list FinancialPeriod) :
  StronglySorted (fun a b => month_geb a b = true) l1 ->
  StronglySorted (fun a b => month_geb a b = true) l2 ->
  Permutation l1 l2 ->
  NoDup (map month l1) ->
  l1 = l2.
Proof.
  intros S1. revert l2. induction S1 as [|x l1 S1 IH Hx]; intros l2 S2 P Hnd.
  - apply Permutation_nil in P. now subst.
  - destruct l2 as [|y l2]; [apply Permutation_sym, Permutation_nil in P; discriminate|].
    inversion_clear S2 as [|? ? S2' Hy]. cbn [map] in Hnd.
    inversion_clear Hnd as [|? ? Hnotin Hnd'].
    assert (x = y) as ->.
    { assert (In y (x :: l1)) as Iy
        by (apply (Permutation_in y (Permutation_sym P)); now left).
      destruct Iy as [E | Iy]; [exact E|].
      assert (In x (y :: l2)) as Ix by (apply (Permutation_in x P); now left).
      destruct Ix as [E | Ix]; [now symmetry|].
      rewrite Forall_forall in Hx, Hy.
      pose proof (Hx y Iy) as G1. pose proof (Hy x Ix) as G2.
      unfold month_geb in G1, G2.
      exfalso. apply Hnotin.
      rewrite (String.leb_antisym _ _ G2 G1). now apply in_map. }
    f_equal. apply IH; [exact S2' | now apply Permutation_cons_inv in P | exact Hnd'].
Qed.

Lemma recent_periods_perm (n : nat) (fs fs' : list FinancialPeriod) :
  Permutation fs fs' -> NoDup (map month fs) ->
  recent_periods n fs = recent_periods n fs'.
Proof.
  intros P Hnd. unfold recent_periods. f_equal.
  apply sorted_months_unique.
  - apply order_by_desc_strongly_sorted; [apply month_geb_total | apply month_geb_trans].
  - apply order_by_desc_strongly_sorted; [apply month_geb_total | apply month_geb_trans].
  - rewrite <- (order_by_desc_perm month_geb fs), <- (order_by_desc_perm month_geb fs').
    exact P.
  - eapply Permutation_NoDup; [|exact Hnd].
    apply Permutation_map, order_by_desc_perm.
Qed.

Lemma total_loans_perm (ls ls' : list Loan) :
  Permutation ls ls' -> total_loans_of ls == total_loans_of ls'.
Proof. intros P. apply Qsum_perm. now apply Permutation_map. Qed.

Lemma defaulted_amount_perm (ls ls' : list Loan) :
  Permutation ls ls' -> defaulted_amount_in ls == defaulted_amount_in ls'.
Proof. intros P. apply Qsum_perm. now apply Permutation_map. Qed.

Lemma total_deposits_perm (acs acs' : list Account) :
  Permutation acs acs' -> total_deposits_of acs == total_deposits_of acs'.
Proof.
  intros P. apply Qsum_perm. unfold deposit_balances.
  now apply Permutation_map, Permutation_filter.
Qed.

Lemma count_of_perm {A} (xs ys : list A) : Permutation xs ys -> count_of xs = count_of ys.
Proof. intros P. unfold count_of. now rewrite (Permutation_length P). Qed.

(** [round(n / d * 100, 2)] behind its guard [d == 0]. *)
Lemma guarded_ratio_comp (n n' d d' : Q) :
  n == n' -> d == d' ->
  (if Qeq_bool d 0 then 0 else py_round (n / d * 100) 2)
  == (if Qeq_bool d' 0 then 0 else py_round (n' / d' * 100) 2).
Proof.
  intros Hn Hd. rewrite (Qeq_bool_comp_l d d' 0 Hd).
  destruct (Qeq_bool d' 0); [reflexivity|]. now rewrite Hn, Hd.
Qed.

Lemma hhi_of_sums (xs : list Q) :
  hhi_of xs ==
  if Qeq_bool (Qsum xs) 0 then 0
  else Qsum (map Qsquare xs) * ((100 / Qsum xs) * (100 / Qsum xs)).
Proof.
  unfold hhi_of. destruct (Qeq_bool (Qsum xs) 0); [reflexivity|].
  generalize (Qsum xs) as t. intros t.
  induction xs as [|x xs IH]; cbn [map Qsum].
  - ring.
  - rewrite IH. unfold Qsquare, Qdiv. ring.
Qed.

Lemma sector_totals_squares (ls : list Loan) :
  Qsum (map Qsquare (sector_totals ls))
  == Qsum (map (fun s => Qsquare (Qsum (map loan_amount (filter (in_sector s) ls))))
               (nodup string_dec (map sector ls))).
Proof.
  unfold sector_totals. rewrite map_map.
  rewrite <- (Qsum_perm _ _ (Permutation_map _ (sector_rows_perm ls))).
  rewrite map_map. reflexivity.
Qed.

Lemma sector_totals_squares_perm (ls ls' : list Loan) :
  Permutation ls ls' ->
  Qsum (map Qsquare (sector_totals ls)) == Qsum (map Qsquare (sector_totals ls')).
Proof.
  intros P. rewrite !sector_totals_squares.
  assert (Permutation (nodup string_dec (map sector ls))
                      (nodup string_dec (map sector ls'))) as PK.
  { apply NoDup_Permutation; try apply NoDup_nodup.
    intros s. rewrite !nodup_In. split; apply Permutation_in.
    - now apply Permutation_map.
    - now apply Permutation_map, Permutation_sym. }
  rewrite <- (Qsum_perm _ _ (Permutation_map _ PK)).
  apply Qsum_map_ext. intros s. unfold Qsquare.
  assert (Qsum (map loan_amount (filter (in_sector s) ls))
          == Qsum (map loan_amount (filter (in_sector s) ls'))) as ->
    by now apply Qsum_perm, Permutation_map, Permutation_filter.
  reflexivity.
Qed.

Lemma sector_totals_sum (ls : list Loan) : Qsum (sector_totals ls) == total_loans_of ls.
Proof.
  unfold sector_totals, total_loans_of. apply sector_rows_sum. reflexivity.
Qed.

Lemma concentration_of_perm (conn conn' : Connection) (ls ls' : list Loan) :
  loans conn = Some ls -> loans conn' = Some ls' -> Permutation ls ls' ->
  concentration_of conn == concentration_of conn'.
Proof.
  intros H H' P. unfold concentration_of. rewrite H, H'.
  rewrite !sector_rows_length.
  assert (List.length (nodup string_dec (map sector ls))
          = List.length (nodup string_dec (map sector ls'))) as ->.
  { apply Permutation_length, NoDup_Permutation; try apply NoDup_nodup.
    intros s. rewrite !nodup_In. split; apply Permutation_in.
    - now apply Permutation_map.
    - now apply Permutation_map, Permutation_sym. }
  destruct (List.length (nodup string_dec (map sector ls')) =? 0)%nat; [reflexivity|].
  rewrite !hhi_of_sums.
  assert (Qsum (sector_totals ls) == Qsum (sector_totals ls')) as ET
    by (rewrite !sector_totals_sum; now apply total_loans_perm).
  rewrite (Qeq_bool_comp_l _ _ 0 ET).
  destruct (Qeq_bool (Qsum (sector_totals ls')) 0); [reflexivity|].
  now rewrite ET, (sector_totals_squares_perm ls ls' P).
Qed.

(** X17. The indicators depend on the rows of the tables, not on the order in
    which the tables hold them: on two readable sources whose tables hold the
    same rows, the months being distinct, NIM, ROA, ROE, CIR, LDR, the NPL
    ratio, both default rates and the risk index are the same. *)
Theorem indicators_ignore_row_order
    (conn conn' : Connection)
    (fs fs' : list FinancialPeriod) (acs acs' : list Account) (ls ls' : list Loan) :
  financial_statements conn = Some fs -> financial_statements conn' = Some fs' ->
  accounts conn = Some acs -> accounts conn' = Some acs' ->
  loans conn = Some ls -> loans conn' = Some ls' ->
  Permutation fs fs' -> NoDup (map month fs) ->
  Permutation acs acs' -> Permutation ls ls' ->
  agree (calculate_net_interest_margin conn) (calculate_net_interest_margin conn') /\
  agree (calculate_roa conn) (calculate_roa conn') /\
  agree (calculate_roe conn) (calculate_roe conn') /\
  agree (calculate_cost_to_income_ratio conn) (calculate_cost_to_income_ratio conn') /\
  agree (calculate_loan_to_deposit_ratio conn) (calculate_loan_to_deposit_ratio conn') /\
  agree (calculate_npl_ratio conn) (calculate_npl_ratio conn') /\
  agree_pair (calculate_default_rate conn) (calculate_default_rate conn') /\
  agree (calculate_bank_risk_index conn) (calculate_bank_risk_index conn').
Proof.
  intros Hfs Hfs' Hacs Hacs' Hls Hls' Pfs Hnd Pacs Pls.
  pose proof (recent_periods_perm MONTHS_FOR_ANALYSIS fs fs' Pfs Hnd) as Ew.
  pose proof (total_deposits_perm acs acs' Pacs) as Ed.
  pose proof (total_loans_perm ls ls' Pls) as El.
  pose proof (defaulted_amount_perm ls ls' Pls) as Eda.
  assert (total_deposits_of acs + total_loans_of ls
          == total_deposits_of acs' + total_loans_of ls') as Ea by now rewrite Ed, El.
  assert (agree (calculate_loan_to_deposit_ratio conn)
                (calculate_loan_to_deposit_ratio conn')) as Aldr.
  { unfold agree. rewrite (ldr_readable conn acs ls Hacs Hls),
      (ldr_readable conn' acs' ls' Hacs' Hls'). cbn [returns].
    now apply guarded_ratio_comp. }
  assert (agree (calculate_npl_ratio conn) (calculate_npl_ratio conn')) as Anpl.
  { unfold agree. rewrite (npl_ratio_readable conn ls Hls),
      (npl_ratio_readable conn' ls' Hls'). cbn [returns].
    now apply guarded_ratio_comp. }
  assert (agree_pair (calculate_default_rate conn) (calculate_default_rate conn')) as Adr.
  { unfold agree_pair. rewrite (default_rate_readable conn ls Hls),
      (default_rate_readable conn' ls' Hls').
    rewrite (count_of_perm ls ls' Pls),
      (count_of_perm _ _ (Permutation_filter defaulted ls ls' Pls)).
    destruct (Qeq_bool (count_of ls') 0); cbn [returns fst snd];
      [split; reflexivity|].
    split; [reflexivity|]. apply py_round_comp; [|reflexivity].
    rewrite (Qltb_comp 0 0 (Qeq_refl 0) _ _ El).
    destruct (Qltb 0 (total_loans_of ls')); [now rewrite Eda, El | reflexivity]. }
  split.
  { unfold agree. rewrite (nim_readable conn fs acs ls Hfs Hacs Hls),
      (nim_readable conn' fs' acs' ls' Hfs' Hacs' Hls'), Ew. cbn [returns].
    now apply guarded_ratio_comp. }
  split.
  { unfold agree. rewrite (roa_readable conn fs acs ls Hfs Hacs Hls),
      (roa_readable conn' fs' acs' ls' Hfs' Hacs' Hls'), Ew. cbn [returns].
    now apply guarded_ratio_comp. }
  split.
  { unfold agree. rewrite (roe_readable conn fs acs ls Hfs Hacs Hls),
      (roe_readable conn' fs' acs' ls' Hfs' Hacs' Hls'), Ew. cbn [returns].
    apply guarded_ratio_comp; [reflexivity | now rewrite Ea]. }
  split.
  { unfold agree. pose proof (cir_readable conn fs Hfs) as C.
    pose proof (cir_readable conn' fs' Hfs') as C'. rewrite <- Ew in C'.
    destruct (calculate_cost_to_income_ratio conn) as [v|]; [|exact C].
    destruct (calculate_cost_to_income_ratio conn') as [v'|]; [|exact C'].
    cbn [returns] in *. now rewrite C, C'. }
  split; [exact Aldr|]. split; [exact Anpl|]. split; [exact Adr|].
  destruct (risk_scores_eq conn) as (npl & ldr & rc & rv & Hn & Hl & Hd & Hs).
  destruct (risk_scores_eq conn') as (npl' & ldr' & rc' & rv' & Hn' & Hl' & Hd' & Hs').
  unfold agree, agree_pair in *. rewrite Hn, Hn' in Anpl. rewrite Hl, Hl' in Aldr.
  rewrite Hd, Hd' in Adr. cbn [returns fst snd] in Anpl, Aldr, Adr.
  rewrite (risk_index_of_scores conn _ _ _ _ Hs),
    (risk_index_of_scores conn' _ _ _ _ Hs'). cbn [returns].
  apply py_round_comp; [|reflexivity]. apply py_min_comp; [|reflexivity].
  rewrite (concentration_of_perm conn conn' ls ls' Hls Hls' Pls).
  destruct Adr as [_ Erv]. now rewrite Anpl, Aldr, Erv.
Qed.

Lemma indicators_ignore_row_order_witness :
  agree (calculate_bank_risk_index test_db)
        (calculate_bank_risk_index
           {| financial_statements := financial_statements test_db;
              accounts := accounts test_db;
              loans := option_map (@rev Loan) (loans test_db) |}).
Proof.
  refine (proj2 (proj2 (proj2 (proj2 (proj2 (proj2 (proj2
    (indicators_ignore_row_order test_db
       {| financial_statements := financial_statements test_db;
          accounts := accounts test_db;
          loans := option_map (@rev Loan) (loans test_db) |}
       _ _ _ _ _ _
       eq_refl eq_refl eq_refl eq_refl eq_refl eq_refl _ _ _ _)))))))).
  - apply Permutation_refl.
  - cbn. repeat constructor; cbn; intuition discriminate.
  - apply Permutation_refl.
  - cbn. apply perm_swap.
Defined.

(** * Properties of [database.py] *)

Lemma insert_desc_smallest {A} (geb : A -> A -> bool) (x : A) (l : list A) :
  Forall (fun y => geb x y = false) l -> insert_desc geb x l = (l ++ [x])%list.
Proof.
  induction 1 as [|y l Hy _ IH]; cbn [insert_desc app]; [reflexivity|].
  now rewrite Hy, IH.
Qed.

(** [ORDER BY month DESC] turns rows in ascending order of month around. *)
Lemma order_by_desc_of_ascending (l : list FinancialPeriod) :
  strictly_ascending (map month l) = true -> order_by_desc month_geb l = rev l.
Proof.
  induction l as [|x l IH]; cbn [map strictly_ascending order_by_desc rev];
    [reflexivity|].
  intros H. apply andb_prop in H as [Hx Hl]. rewrite (IH Hl).
  apply insert_desc_smallest. apply Forall_rev.
  rewrite forallb_forall in Hx. apply Forall_forall. intros y Hy.
  unfold month_geb. apply negb_true_iff, Hx. now apply in_map.
Qed.

Lemma statements_loop_result (fuel : nat) (rng : nat -> Q) (pos : nat) :
  (25 <= fuel)%nat ->
  statements_loop fuel rng pos 2023 1 0 []
  = Some (generated_statements rng pos, (pos + 96)%nat).
Proof.
  intros H. do 25 (destruct fuel as [|fuel]; [lia|]). clear H.
  unfold generated_statements.
  cbv -[statement_of strftime_Y_m Nat.add Nat.mul].
  f_equal. f_equal; [|lia].
  repeat (apply (f_equal2 cons);
          [f_equal; try reflexivity; f_equal; lia|]).
  reflexivity.
Qed.

Lemma generated_statements_months (rng : nat -> Q) (pos : nat) :
  map month (generated_statements rng pos) = months_2023_2024.
Proof. reflexivity. Qed.

Lemma statements_loop_months (fuel : nat) (rng : nat -> Q) (pos : nat) :
  (25 <= fuel)%nat ->
  exists statements,
    statements_loop fuel rng pos 2023 1 0 [] = Some (statements, (pos + 96)%nat) /\
    map month statements = months_2023_2024.
Proof.
  intros H. exists (generated_statements rng pos).
  split; [now apply statements_loop_result | apply generated_statements_months].
Qed.

(** X18. [populate_financial_statements] ends, whatever the samples drawn,
    after 24 turns of its loop and 96 samples, and replaces the table by the
    statements of the months 2023-01 to 2024-12, in this order, which is also
    the order of the month strings; the other tables stay as they are.  The
    analysis window of the calculators on this table is the year 2024, the
    latest month first. *)
Theorem generated_statements_window
    (fuel : nat) (rng : nat -> Q) (pos : nat) (conn : Connection) :
  (25 <= fuel)%nat ->
  exists conn' fs,
    populate_financial_statements fuel rng pos conn = Some (conn', (pos + 96)%nat) /\
    financial_statements conn' = Some fs /\
    accounts conn' = accounts conn /\
    loans conn' = loans conn /\
    map month fs = months_2023_2024 /\
    recent_periods MONTHS_FOR_ANALYSIS fs = rev (skipn 12 fs) /\
    map month (recent_periods MONTHS_FOR_ANALYSIS fs) = rev (skipn 12 months_2023_2024).
Proof.
  intros H. destruct (statements_loop_months fuel rng pos H) as (fs & Hloop & Hm).
  unfold populate_financial_statements. rewrite Hloop.
  do 2 eexists. split; [reflexivity|]. cbn [financial_statements accounts loans].
  split; [reflexivity|]. split; [reflexivity|]. split; [reflexivity|].
  split; [exact Hm|].
  assert (recent_periods MONTHS_FOR_ANALYSIS fs = rev (skipn 12 fs)) as E.
  { unfold recent_periods. rewrite order_by_desc_of_ascending by now rewrite Hm.
    rewrite firstn_rev. do 2 f_equal.
    rewrite <- (length_map month fs), Hm. reflexivity. }
  split; [exact E|].
  now rewrite E, map_rev, <- skipn_map, Hm.
Qed.

Lemma generated_statements_window_witness :
  exists conn' fs,
    populate_financial_statements 30 (fun _ => 1 # 2) 0 empty_db = Some (conn', 96%nat) /\
    financial_statements conn' = Some fs /\
    map month (recent_periods MONTHS_FOR_ANALYSIS fs)
    = ["2024-12"; "2024-11"; "2024-10"; "2024-09"; "2024-08"; "2024-07";
       "2024-06"; "2024-05"; "2024-04"; "2024-03"; "2024-02"; "2024-01"].
Proof.
  destruct (generated_statements_window 30 (fun _ => 1 # 2) 0 empty_db)
    as (conn' & fs & Hp & Hfs & _ & _ & _ & _ & Hw); [lia|].
  exists conn', fs. split; [exact Hp|]. split; [exact Hfs | exact Hw].
Defined.

(** ** The cost-to-income ratio of the generated statements *)

Lemma py_round_close (x : float) :
  x - (1 # 200) <= py_round x 2 <= x + (1 # 200).
Proof.
  pose proof (round_half_even_close (x * 100)) as [L U].
  rewrite py_round_2. lra.
Qed.

Lemma statement_of_cost_share (s : string) (k : Z) (u1 u2 u3 u4 : Q) :
  (0 <= k <= 23)%Z ->
  0 <= u1 < 1 -> 0 <= u3 < 1 -> 0 <= u4 < 1 ->
  let r := statement_of s k u1 u2 u3 u4 in
  9999999 <= interest_income r + fee_income r /\
  (1 # 4) * (interest_income r + fee_income r) <= operating_cost r /\
  operating_cost r <= (7 # 10) * (interest_income r + fee_income r) + (12 # 1000).
Proof.
  intros Hk H1 H3 H4. cbv zeta.
  cbn [statement_of interest_income fee_income operating_cost]. unfold uniform.
  assert (0 <= inject_Z k <= 23) as HK.
  { change 0 with (inject_Z 0). change 23 with (inject_Z 23).
    rewrite <- !Zle_Qle. exact Hk. }
  set (K := inject_Z k) in *.
  pose proof (py_round_close
                ((8000000 + (12000000 - 8000000) * u1) * (1 + K * (1 # 100)))) as [A1 A2].
  pose proof (py_round_close
                ((2000000 + (4000000 - 2000000) * u3) * (1 + K * (1 # 100)))) as [B1 B2].
  pose proof (py_round_close
                ((5000000 + (7000000 - 5000000) * u4) * (1 + K * (5 # 1000)))) as [C1 C2].
  assert (0 <= u1 * K <= K) as P1
    by (split; [apply Qmult_le_0_compat; lra
               | setoid_replace K with (1 * K) at 2 by ring;
                 apply Qmult_le_compat_r; lra]).
  assert (0 <= u3 * K <= K) as P3
    by (split; [apply Qmult_le_0_compat; lra
               | setoid_replace K with (1 * K) at 2 by ring;
                 apply Qmult_le_compat_r; lra]).
  assert (0 <= u4 * K <= K) as P4
    by (split; [apply Qmult_le_0_compat; lra
               | setoid_replace K with (1 * K) at 2 by ring;
                 apply Qmult_le_compat_r; lra]).
  repeat split; lra.
Qed.

Lemma py_round_upper_near (x : float) (b : Z) :
  x * 100 < inject_Z b + (1 # 2) -> py_round x 2 * 100 <= inject_Z b.
Proof.
  intros H. pose proof (round_half_even_close (x * 100)) as [_ U].
  assert (inject_Z (round_half_even (x * 100)) < inject_Z (b + 1)) as L
    by (rewrite inject_Z_plus; change (inject_Z 1) with 1; lra).
  rewrite <- Zlt_Qlt in L.
  assert (round_half_even (x * 100) <= b)%Z as L' by lia.
  rewrite Zle_Qle in L'. rewrite py_round_2. lra.
Qed.

Lemma Qsum_between {A} (f g : A -> Q) (a b e : Q) (rows : list A) :
  Forall (fun r => a * f r <= g r <= b * f r + e) rows ->
  a * Qsum (map f rows) <= Qsum (map g rows)
  <= b * Qsum (map f rows) + inject_Z (Z.of_nat (List.length rows)) * e.
Proof.
  induction 1 as [|r rows Hr _ IH]; cbn [map Qsum List.length].
  - change (inject_Z (Z.of_nat 0)) with 0. lra.
  - rewrite Nat2Z.inj_succ. unfold Z.succ. rewrite inject_Z_plus.
    change (inject_Z 1) with 1. lra.
Qed.

Lemma Qsum_at_least {A} (f : A -> Q) (c : Q) (rows : list A) :
  Forall (fun r => c <= f r) rows ->
  inject_Z (Z.of_nat (List.length rows)) * c <= Qsum (map f rows).
Proof.
  induction 1 as [|r rows Hr _ IH]; cbn [map Qsum List.length].
  - change (inject_Z (Z.of_nat 0)) with 0. lra.
  - rewrite Nat2Z.inj_succ. unfold Z.succ. rewrite inject_Z_plus.
    change (inject_Z 1) with 1. lra.
Qed.

(** X19. On the statements [populate_financial_statements] writes, whatever
    the samples in [0, 1) it draws, [calculate_cost_to_income_ratio] is not
    the fallback for a zero income and lies between 25 and 70: the generated
    operating cost is at least a quarter and, up to rounding, at most 70% of
    the generated income of its month. *)
Theorem generated_cost_to_income_ratio
    (fuel : nat) (rng : nat -> Q) (pos : nat) (conn : Connection) :
  (25 <= fuel)%nat ->
  (forall i, 0 <= rng i < 1) ->
  exists conn' pos',
    populate_financial_statements fuel rng pos conn = Some (conn', pos') /\
    returns (calculate_cost_to_income_ratio conn') (fun cir => 25 <= cir <= 70).
Proof.
  intros Hfuel Hrng. unfold populate_financial_statements.
  rewrite (statements_loop_result fuel rng pos Hfuel).
  do 2 eexists. split; [reflexivity|].
  set (fs := generated_statements rng pos).
  set (conn' := {| financial_statements := Some fs;
                   accounts := accounts conn; loans := loans conn |}).
  set (w := recent_periods MONTHS_FOR_ANALYSIS fs).
  set (inc := fun r => interest_income r + fee_income r).
  assert (Forall (fun r => 9999999 <= inc r /\
                           (1 # 4) * inc r <= operating_cost r
                           <= (7 # 10) * inc r + (12 # 1000)) w) as Hw.
  { apply Forall_forall. intros r Hr. apply recent_periods_incl in Hr.
    unfold fs, generated_statements in Hr. apply in_map_iff in Hr as (i & <- & Hi).
    apply in_seq in Hi.
    destruct (statement_of_cost_share
                (nth i months_2023_2024 "") (Z.of_nat i)
                (rng (pos + 4 * i)%nat) (rng (pos + 4 * i + 1)%nat)
                (rng (pos + 4 * i + 2)%nat) (rng (pos + 4 * i + 3)%nat))
      as (A & B & C); try apply Hrng; [lia|].
    unfold inc. tauto. }
  assert (List.length w = 12%nat) as Hlen
    by (unfold w; rewrite recent_periods_length; reflexivity).
  assert (Qsum (map inc w)
          == Qsum (map interest_income w) + Qsum (map fee_income w)) as Einc
    by apply Qsum_map_plus.
  pose proof (Qsum_at_least inc 9999999 w
                ltac:(eapply Forall_impl; [|exact Hw]; cbn; tauto)) as Hlow.
  pose proof (Qsum_between inc operating_cost (1 # 4) (7 # 10) (12 # 1000) w
                ltac:(eapply Forall_impl; [|exact Hw]; cbn; tauto)) as [Hc1 Hc2].
  rewrite Hlen in Hlow, Hc2. change (inject_Z (Z.of_nat 12)) with 12 in Hlow, Hc2.
  pose proof (cir_readable conn' fs eq_refl) as Hcir. fold w in Hcir.
  destruct (calculate_cost_to_income_ratio conn') as [cir|]; [|exact Hcir].
  cbn [returns] in *. rewrite <- Einc in Hcir.
  set (income := Qsum (map inc w)) in *.
  set (cost := Qsum (map operating_cost w)) in *.
  assert (Qeq_bool income 0 = false) as E0 by (apply Qeq_bool_false; lra).
  rewrite E0 in Hcir. fold income in Einc. rewrite <- Einc in Hcir. rewrite Hcir.
  assert ((1 # 4) <= cost / income) as L by (apply Qle_shift_div_l; lra).
  assert (cost / income <= (7 # 10) + (1 # 1000000)) as U
    by (apply Qle_shift_div_r; lra).
  set (ratio := cost / income) in *.
  split.
  - assert (inject_Z 2500 <= ratio * 100 * 100) as R
      by (change (inject_Z 2500) with 2500; lra).
    apply py_round_lower in R. change (inject_Z 2500) with 2500 in R. lra.
  - assert (ratio * 100 * 100 < inject_Z 7000 + (1 # 2)) as R
      by (change (inject_Z 7000) with 7000; lra).
    apply py_round_upper_near in R. change (inject_Z 7000) with 7000 in R. lra.
Qed.

Lemma generated_cost_to_income_ratio_witness :
  exists conn' pos',
    populate_financial_statements 25 (fun _ => 1 # 2) 0 empty_db = Some (conn', pos') /\
    returns (calculate_cost_to_income_ratio conn') (fun cir => 25 <= cir <= 70).
Proof.
  apply (generated_cost_to_income_ratio 25 (fun _ => 1 # 2) 0 empty_db).
  - lia.
  - intros _. split; [discriminate | reflexivity].
Defined.

(** * The concentration of a single sector *)

Lemma hhi_of_singleton (x : Q) : ~ x == 0 -> hhi_of [x] == 10000.
Proof.
  intros H. unfold hhi_of. cbn [Qsum map].
  assert (~ x + 0 == 0) as H' by lra.
  apply Qeq_bool_false in H'. rewrite H'. field. lra.
Qed.

(** C7, as amended.  When all loans are of one sector and their total amount
    is not 0, the concentration contribution of [calculate_bank_risk_index] is
    exactly 10: the one share is 100 and the index of concentration 10000.
    With an empty or unreadable loans table the contribution is the default
    10. *)
Theorem concentration_contribution (conn : Connection) :
  exists npl_score ldr_score default_score concentration,
    risk_scores conn = Ok (npl_score, ldr_score, default_score, concentration) /\
    (forall ls, loans conn = Some ls -> single_sector ls ->
                ~ total_loans_of ls == 0 -> concentration == 10) /\
    (loans conn = Some [] \/ loans conn = None -> concentration = 10).
Proof.
  destruct (risk_scores_eq conn) as (npl & ldr & rc & rv & _ & _ & _ & Hs).
  do 3 eexists. exists (concentration_of conn). split; [exact Hs|]. split.
  - intros ls Hls Hone Hnz.
    assert (ls <> []) as Hne by (intros ->; apply Hnz; reflexivity).
    rewrite (concentration_of_readable conn ls Hls Hne).
    apply (one_sector_row ls Hne) in Hone.
    pose proof (sector_totals_sum ls) as Hsum.
    destruct (sector_totals ls) as [|x [|y rest]]; try discriminate.
    cbn [Qsum] in Hsum.
    rewrite hhi_of_singleton by lra. reflexivity.
  - unfold concentration_of. intros [-> | ->]; reflexivity.
Qed.

Lemma concentration_contribution_witness :
  exists npl_score ldr_score default_score concentration,
    risk_scores retail_db = Ok (npl_score, ldr_score, default_score, concentration) /\
    concentration == 10.
Proof.
  destruct (concentration_contribution retail_db) as (a & b & c & d & Hs & Hone & _).
  exists a, b, c, d. split; [exact Hs|].
  apply (Hone _ eq_refl).
  - exists "Retail". intros l [<- | [<- | []]]; reflexivity.
  - vm_compute. discriminate.
Defined.

(** C7, as stated, fails in its "only if": a contribution of exactly 10 does
    not need a single sector.  On a source the schema admits, with loans of
    100, 100, 100 and -100 in four sectors, the shares are 50, 50, 50 and -50
    and their squares sum to 10000.  And with positive amounts, in the
    binary64 arithmetic of the program, the exposures 1e17 and 1 of two
    sectors have the shares 100.0 and 1e-15, whose squares sum to 10000.0. *)
Lemma concentration_ten_on_several_sectors :
  (exists ls npl_score ldr_score default_score concentration,
      loans four_sector_db = Some ls /\ ~ single_sector ls /\
      ~ total_loans_of ls == 0 /\
      risk_scores four_sector_db = Ok (npl_score, ldr_score, default_score, concentration) /\
      concentration == 10) /\
  concentration_score_binary64 [1e17%float; 1%float] = 10%float.
Proof.
  split; [|reflexivity].
  do 5 eexists. split; [reflexivity|]. split.
  - intros [s Hs].
    pose proof (Hs _ (or_introl eq_refl)) as H1.
    pose proof (Hs _ (or_intror (or_introl eq_refl))) as H2.
    cbn in H1, H2. congruence.
  - split; [vm_compute; discriminate|].
    split; [reflexivity|]. vm_compute. reflexivity.
Qed.
